(** * Crypto RSI scanner: the aggregator, alert effect and toast queue of App.tsx

    Shallow embedding of the logic of [src/App.tsx]:
    - JS objects keyed by strings ([Record<string, _>]) are association lists
      in insertion order, which is the order of [Object.keys] and of
      [JSON.stringify] for the non-numeric keys (symbol names) used here;
    - RSI values ([number]) are rationals [Q]: the code only compares them
      with the thresholds 70 and 30;
    - [Date.now()] is an explicit clock argument: [Date_now k] is the value
      read by the k-th call during one synchronous effect run;
    - React state updates and effect re-runs are explicit state passing.
    It also covers the favorites, the reset, the displayed symbol list of
    App.tsx and the column count of components/Grid.tsx. *)

From Stdlib Require Import String Ascii List Bool ZArith QArith Qround Lia.
From Stdlib Require Import Sorting.Permutation Sorting.Sorted Lqa.
Import ListNotations.

Local Open Scope string_scope.

(** ** Data model (types used by App.tsx) *)

Definition Timeframe := string.

Record RsiPoint := mkRsiPoint { time : Z; value : Q }.

(** Only the field of [SymbolData] that App.tsx reads is kept. *)
Record SymbolData := mkSymbolData { rsi : list RsiPoint }.

Inductive AlertStatus := overbought | oversold | neutral.

Definition AlertStatus_eq_dec (a b : AlertStatus) : {a = b} + {a <> b}.
Proof. decide equality. Defined.

Definition AlertStatus_eqb (a b : AlertStatus) : bool :=
  if AlertStatus_eq_dec a b then true else false.

(** [Toast['type']] is ['overbought' | 'oversold']. *)
Inductive ToastType := toast_overbought | toast_oversold.

Module Toast.
Record t := mk {
  symbol : string;
  timeframe : Timeframe;
  rsi : Q;
  type : ToastType;
  id : Z
}.
End Toast.

(** ** JS objects with string keys *)

Definition Obj (A : Type) := list (string * A).

Fixpoint obj_get {A} (o : Obj A) (k : string) : option A :=
  match o with
  | [] => None
  | (k', v) :: o' => if String.eqb k k' then Some v else obj_get o' k
  end.

(** [o[k] = v]: an existing key keeps its position, a new key is appended. *)
Fixpoint obj_set {A} (o : Obj A) (k : string) (v : A) : Obj A :=
  match o with
  | [] => [(k, v)]
  | (k', v') :: o' =>
      if String.eqb k k' then (k', v) :: o' else (k', v') :: obj_set o' k v
  end.

Definition obj_keys {A} (o : Obj A) : list string := map fst o.

(** [JSON.stringify(a) !== JSON.stringify(b)] on two status maps. *)
Definition status_entry_eq_dec (x y : string * AlertStatus) : {x = y} + {x <> y}.
Proof. decide equality; [apply AlertStatus_eq_dec | apply string_dec]. Defined.

Definition status_map_eq_dec (a b : Obj AlertStatus) : {a = b} + {a <> b} :=
  list_eq_dec status_entry_eq_dec a b.

Definition includes (l : list string) (x : string) : bool :=
  existsb (String.eqb x) l.

(** ** The alert effect (App.tsx, lines 235-276) *)

Definition ALLOWED_TIMEFRAMES_FOR_ALERTS : list Timeframe :=
  ["15m"; "30m"; "1h"; "2h"; "4h"; "8h"; "1d"; "3d"; "1w"].

Definition overboughtThreshold : Q := 70.
Definition oversoldThreshold : Q := 30.

(** [lastAlertedRsiStatus[symbol] || 'neutral'] *)
Definition previous_status (last : Obj AlertStatus) (symbol : string) : AlertStatus :=
  match obj_get last symbol with
  | Some s => s
  | None => neutral
  end.

(** [addToast]: [setToasts(prev => [...prev, { ...toast, id: Date.now() }])],
    the id being the clock value read when the toast is appended. *)
Definition addToast (Date_now : nat -> Z) (added : list Toast.t)
    (symbol : string) (timeframe : Timeframe) (r : Q) (ty : ToastType) : list Toast.t :=
  added ++ [Toast.mk symbol timeframe r ty (Date_now (length added))].

(** The body of [Object.keys(symbolsData).forEach(symbol => ...)]; the
    accumulator is [(newAlertStatus, toasts added so far)]. *)
Definition alert_symbol (timeframe : Timeframe) (Date_now : nat -> Z)
    (symbolsData : Obj SymbolData) (lastAlertedRsiStatus : Obj AlertStatus)
    (acc : Obj AlertStatus * list Toast.t) (symbol : string)
    : Obj AlertStatus * list Toast.t :=
  let '(newAlertStatus, added) := acc in
  match obj_get symbolsData symbol with
  | None => acc
  | Some symbolData =>
      if Nat.eqb (length (rsi symbolData)) 0 then acc else
      match nth_error (rsi symbolData) (length (rsi symbolData) - 1) with
      | None => acc
      | Some p =>
          let lastRsi := value p in
          let previousStatus := previous_status lastAlertedRsiStatus symbol in
          if Qle_bool overboughtThreshold lastRsi then
            (obj_set newAlertStatus symbol overbought,
             if AlertStatus_eqb previousStatus overbought then added
             else addToast Date_now added symbol timeframe lastRsi toast_overbought)
          else if Qle_bool lastRsi oversoldThreshold then
            (obj_set newAlertStatus symbol oversold,
             if AlertStatus_eqb previousStatus oversold then added
             else addToast Date_now added symbol timeframe lastRsi toast_oversold)
          else (obj_set newAlertStatus symbol neutral, added)
      end
  end.

(** One run of the effect: the status map passed to
    [setLastAlertedRsiStatus] (if it is called) and the toasts added. *)
Definition alert_effect (areAlertsEnabled : bool) (timeframe : Timeframe)
    (symbolsData : Obj SymbolData) (lastAlertedRsiStatus : Obj AlertStatus)
    (Date_now : nat -> Z) : option (Obj AlertStatus) * list Toast.t :=
  if negb areAlertsEnabled
     || negb (includes ALLOWED_TIMEFRAMES_FOR_ALERTS timeframe)
     || Nat.eqb (length (obj_keys symbolsData)) 0
  then (None, [])
  else
    let '(newAlertStatus, added) :=
      fold_left (alert_symbol timeframe Date_now symbolsData lastAlertedRsiStatus)
        (obj_keys symbolsData) (lastAlertedRsiStatus, []) in
    if status_map_eq_dec newAlertStatus lastAlertedRsiStatus
    then (None, added)
    else (Some newAlertStatus, added).

(** ** The toast queue (App.tsx, lines 228-233) *)

(** [removeToast]: [setToasts(prev => prev.filter(toast => toast.id !== id))].
    It is called by a toast's 5-second timer and by its close button. *)
Definition removeToast (id : Z) (toasts : list Toast.t) : list Toast.t :=
  filter (fun toast => negb (Z.eqb (Toast.id toast) id)) toasts.

(** ** The alerting part of the App component's state *)

Record AlertApp := mkAlertApp {
  areAlertsEnabled : bool;
  timeframe : Timeframe;
  symbolsData : Obj SymbolData;
  lastAlertedRsiStatus : Obj AlertStatus;
  toasts : list Toast.t
}.

(** One run of the effect against the current state, with its state
    updates applied; the flag says whether [setLastAlertedRsiStatus] ran. *)
Definition run_alert_effect (Date_now : nat -> Z) (st : AlertApp) : AlertApp * bool :=
  let '(set, added) :=
    alert_effect (areAlertsEnabled st) (timeframe st) (symbolsData st)
      (lastAlertedRsiStatus st) Date_now in
  (mkAlertApp (areAlertsEnabled st) (timeframe st) (symbolsData st)
     (match set with Some m => m | None => lastAlertedRsiStatus st end)
     (toasts st ++ added),
   match set with Some _ => true | None => false end).

(** After a dependency of the effect changed: the effect runs, and runs once
    more when it changed [lastAlertedRsiStatus], which is itself one of its
    dependencies ([alert_effect_rerun_quiet] shows that second run changes
    nothing, so there is no third). *)
Definition commit (Date_now : nat -> Z) (st : AlertApp) : AlertApp :=
  let '(st1, changed) := run_alert_effect Date_now st in
  if changed then fst (run_alert_effect Date_now st1) else st1.

Inductive AppEvent :=
| DataLoaded (d : Obj SymbolData)    (* setSymbolsData(newData) at the end of fetchData *)
| AlertsToggled                      (* handleAlertsToggle *)
| TimeframeChanged (tf : Timeframe)  (* handleTimeframeChange *)
| ToastRemoved (id : Z).             (* onRemove(toast.id) *)

Definition app_step (Date_now : nat -> Z) (st : AlertApp) (ev : AppEvent) : AlertApp :=
  match ev with
  | DataLoaded d =>
      commit Date_now (mkAlertApp (areAlertsEnabled st) (timeframe st) d
                         (lastAlertedRsiStatus st) (toasts st))
  | AlertsToggled =>
      commit Date_now (mkAlertApp (negb (areAlertsEnabled st)) (timeframe st)
                         (symbolsData st) (lastAlertedRsiStatus st) (toasts st))
  | TimeframeChanged tf =>
      if String.eqb tf (timeframe st) then st
      else commit Date_now (mkAlertApp (areAlertsEnabled st) tf (symbolsData st)
                              (lastAlertedRsiStatus st) (toasts st))
  | ToastRemoved id =>
      mkAlertApp (areAlertsEnabled st) (timeframe st) (symbolsData st)
        (lastAlertedRsiStatus st) (removeToast id (toasts st))
  end.

(** A run of events, each with the clock readings of its synchronous work. *)
Fixpoint run_app (st : AlertApp) (evs : list (AppEvent * (nat -> Z))) : AlertApp :=
  match evs with
  | [] => st
  | (ev, clk) :: evs' => run_app (app_step clk st ev) evs'
  end.

(** ** The refresh cycle [fetchData] (App.tsx, lines 200-226) *)

(** The outcome of [fetchRsiForSymbol(symbol, timeframe)]: [Some data] when
    its promise resolves, [None] when it rejects. *)
Definition FetchResult := option SymbolData.

(** [Promise.all]: every value in order, or a rejection if any rejects. *)
Fixpoint promise_all (rs : list FetchResult) : option (list SymbolData) :=
  match rs with
  | [] => Some []
  | None :: _ => None
  | Some d :: rs' =>
      match promise_all rs' with
      | Some ds => Some (d :: ds)
      | None => None
      end
  end.

(** [const newData = {}; results.forEach((data, index) => {
       newData[userSymbols[index]] = data; });]
    ([results] has one entry per element of [userSymbols]). *)
Definition build_newData (userSymbols : list string) (results : list SymbolData)
    : Obj SymbolData :=
  fold_left (fun acc '(k, data) => obj_set acc k data) (combine userSymbols results) [].

(** The data side of the component: the snapshot, the loading flag, the log
    of fetch requests issued, and the cycles whose [Promise.all] is pending
    (a cycle number with the symbol list it captured). *)
Record Aggregator := mkAggregator {
  snapshot : Obj SymbolData;
  loading : bool;
  requests : list (string * Timeframe);
  pending : list (nat * list string);
  cycles : nat
}.

Inductive AggEvent :=
| CycleStarted (userSymbols : list string) (tf : Timeframe)
    (* fetchData(tf): on mount, timeframe change and every 60 s *)
| CycleSettled (cycle : nat) (results : list FetchResult).
    (* the awaited Promise.all of that cycle settles *)

Fixpoint pending_find (p : list (nat * list string)) (c : nat) : option (list string) :=
  match p with
  | [] => None
  | (c', syms) :: p' => if Nat.eqb c c' then Some syms else pending_find p' c
  end.

Definition pending_remove (p : list (nat * list string)) (c : nat) :=
  filter (fun e => negb (Nat.eqb (fst e) c)) p.

Definition agg_step (st : Aggregator) (ev : AggEvent) : Aggregator :=
  match ev with
  | CycleStarted userSymbols tf =>
      match userSymbols with
      | [] =>
          (* setSymbolsData({}); setLoading(false); return; *)
          mkAggregator [] false (requests st) (pending st) (cycles st)
      | _ :: _ =>
          (* setLoading(true); userSymbols.map(symbol => fetchRsiForSymbol(...)) *)
          mkAggregator (snapshot st) true
            (requests st ++ map (fun s => (s, tf)) userSymbols)
            (pending st ++ [(cycles st, userSymbols)])
            (S (cycles st))
      end
  | CycleSettled c results =>
      match pending_find (pending st) c with
      | None => st
      | Some userSymbols =>
          match promise_all results with
          | Some ds =>
              (* setSymbolsData(newData); finally setLoading(false) *)
              mkAggregator (build_newData userSymbols ds) false (requests st)
                (pending_remove (pending st) c) (cycles st)
          | None =>
              (* catch: console.error; finally setLoading(false) *)
              mkAggregator (snapshot st) false (requests st)
                (pending_remove (pending st) c) (cycles st)
          end
      end
  end.

Fixpoint run_agg (st : Aggregator) (evs : list AggEvent) : Aggregator :=
  match evs with
  | [] => st
  | ev :: evs' => run_agg (agg_step st ev) evs'
  end.

(** One cycle that no other event interleaves with: it starts, and (when it
    issued fetches) its [Promise.all] settles with the fetches' outcomes. *)
Definition refresh (st : Aggregator) (userSymbols : list string) (tf : Timeframe)
    (fetch : string -> FetchResult) : Aggregator :=
  let st1 := agg_step st (CycleStarted userSymbols tf) in
  match userSymbols with
  | [] => st1
  | _ :: _ => agg_step st1 (CycleSettled (cycles st) (map fetch userSymbols))
  end.

(** ** Persisted configuration (App.tsx, lines 119-164) *)

#[warnings="-register-all"]
Inductive json :=
| JNull
| JBool (b : bool)
| JNum (q : Q)
| JStr (s : string)
| JArr (l : list json)
| JObj (fields : list (string * json)).

Definition json_of_symbols (l : list string) : json := JArr (map JStr l).

Section Storage.

(** [JSON.parse], the host's parser: [None] when it throws. *)
Variable JSON_parse : string -> option json.
(** [DEFAULT_SYMBOLS] from the constants module. *)
Variable DEFAULT_SYMBOLS : list string.

(** [try { const saved = localStorage.getItem(key);
           return saved ? JSON.parse(saved) : dflt; }
     catch { return dflt; }]; the empty string is falsy. *)
Definition load_saved (saved : option string) (dflt : json) : json :=
  match saved with
  | None => dflt
  | Some s =>
      if String.eqb s "" then dflt
      else match JSON_parse s with
           | Some v => v
           | None => dflt
           end
  end.

Record Config := mkConfig {
  cfg_allSymbols : json;
  cfg_userSymbols : json;
  cfg_favorites : json;
  cfg_areAlertsEnabled : json
}.

(** The four [useState] initializers, in the order they run. *)
Definition init_config (getItem : string -> option string) : Config :=
  let allSymbols :=
    load_saved (getItem "crypto-all-symbols") (json_of_symbols DEFAULT_SYMBOLS) in
  let userSymbols := load_saved (getItem "crypto-user-symbols") allSymbols in
  let favorites := load_saved (getItem "crypto-favorites") (JArr []) in
  let alertsEnabled := load_saved (getItem "crypto-alerts-enabled") (JBool false) in
  mkConfig allSymbols userSymbols favorites alertsEnabled.

Definition malformed_or_absent (saved : option string) : Prop :=
  saved = None \/ exists s, saved = Some s /\ JSON_parse s = None.

End Storage.

(** ** Derived views of the alert effect *)

(** The status the effect computes from an RSI value (lines 253-267). *)
Definition classify (v : Q) : AlertStatus :=
  if Qle_bool overboughtThreshold v then overbought
  else if Qle_bool v oversoldThreshold then oversold
  else neutral.

(** [symbolsData[symbol].rsi[rsi.length - 1].value], when the effect reads it. *)
Definition latest_rsi (d : Obj SymbolData) (s : string) : option Q :=
  match obj_get d s with
  | None => None
  | Some sd =>
      if Nat.eqb (length (rsi sd)) 0 then None
      else option_map value (nth_error (rsi sd) (length (rsi sd) - 1))
  end.

(** A toast is added when the status changed to an extreme one. *)
Definition should_notify (previous current : AlertStatus) : bool :=
  negb (AlertStatus_eqb previous current) && negb (AlertStatus_eqb current neutral).

Definition toast_type_of (st : AlertStatus) : ToastType :=
  match st with
  | oversold => toast_oversold
  | _ => toast_overbought
  end.

Definition alert_gate (areAlertsEnabled : bool) (timeframe : Timeframe)
    (symbolsData : Obj SymbolData) : bool :=
  areAlertsEnabled && includes ALLOWED_TIMEFRAMES_FOR_ALERTS timeframe
  && negb (Nat.eqb (length (obj_keys symbolsData)) 0).

Definition alert_fold (timeframe : Timeframe) (Date_now : nat -> Z)
    (symbolsData : Obj SymbolData) (last : Obj AlertStatus) :=
  fold_left (alert_symbol timeframe Date_now symbolsData last)
    (obj_keys symbolsData) (last, []).

Definition toasts_for (s : string) (l : list Toast.t) : list Toast.t :=
  filter (fun t => String.eqb (Toast.symbol t) s) l.

Definition count_key (s : string) (ks : list string) : nat :=
  length (filter (String.eqb s) ks).

Definition obj_remove {A} (o : Obj A) (s : string) : Obj A :=
  filter (fun e => negb (String.eqb (fst e) s)) o.

(** A run of events, with the state after each one. *)
Fixpoint run_app_trace (st : AlertApp) (evs : list (AppEvent * (nat -> Z)))
    : list AlertApp :=
  match evs with
  | [] => []
  | (ev, clk) :: evs' =>
      let st' := app_step clk st ev in st' :: run_app_trace st' evs'
  end.

(** The aggregator when the component mounts ([loading] starts [true]). *)
Definition agg_init : Aggregator := mkAggregator [] true [] [] 0.

(** Every pending cycle was numbered before the next number to hand out. *)
Definition agg_inv (st : Aggregator) : Prop :=
  Forall (fun e => (fst e < cycles st)%nat) (pending st).

(** ** Favorites, reset and the displayed symbol list (App.tsx, lines 278-359) *)

(** [toggleFavorite]: [prev.includes(symbol) ? prev.filter(s => s !== symbol)
    : [...prev, symbol]]. *)
Definition toggleFavorite (symbol : string) (prev : list string) : list string :=
  if includes prev symbol
  then filter (fun s => negb (String.eqb s symbol)) prev
  else prev ++ [symbol].

(** [localStorage.removeItem(key)] on a storage seen through [getItem]. *)
Definition removeItem (key : string) (getItem : string -> option string)
    : string -> option string :=
  fun k => if String.eqb k key then None else getItem k.

(** The storage after the four [removeItem] calls of [handleResetSettings]. *)
Definition reset_storage (getItem : string -> option string) : string -> option string :=
  removeItem "crypto-alerts-enabled"
    (removeItem "crypto-favorites"
       (removeItem "crypto-user-symbols"
          (removeItem "crypto-all-symbols" getItem))).

(** The settings [handleResetSettings] sets: [setAllSymbols(DEFAULT_SYMBOLS)],
    [setUserSymbols(DEFAULT_SYMBOLS)], [setFavorites([])],
    [setAreAlertsEnabled(false)]. *)
Definition reset_config (DEFAULT_SYMBOLS : list string) : Config :=
  mkConfig (json_of_symbols DEFAULT_SYMBOLS) (json_of_symbols DEFAULT_SYMBOLS)
    (JArr []) (JBool false).

(** [String.prototype.toLowerCase] on the ASCII range, the alphabet of the
    exchange's symbol names: A-Z become a-z, every other character stays. *)
Definition ascii_toLower (c : ascii) : ascii :=
  let n := nat_of_ascii c in
  if (Nat.leb 65 n && Nat.leb n 90)%bool then ascii_of_nat (n + 32) else c.

Fixpoint toLowerCase (s : string) : string :=
  match s with
  | EmptyString => EmptyString
  | String c s' => String (ascii_toLower c) (toLowerCase s')
  end.

(** [hay.includes(needle)]: [needle] occurs at some position of [hay]. *)
Fixpoint str_includes (hay needle : string) : bool :=
  String.prefix needle hay ||
  match hay with
  | EmptyString => false
  | String _ hay' => str_includes hay' needle
  end.

Inductive SortOrder := sort_default | rsi_desc | rsi_asc.

Definition SortOrder_eqb (a b : SortOrder) : bool :=
  match a, b with
  | sort_default, sort_default | rsi_desc, rsi_desc | rsi_asc, rsi_asc => true
  | _, _ => false
  end.

(** [data?.rsi?.[data.rsi.length - 1]?.value ?? (sortOrder === 'rsi-desc' ? -1 : 101)] *)
Definition sort_key (sortOrder : SortOrder) (symbolsData : Obj SymbolData)
    (s : string) : Q :=
  match latest_rsi symbolsData s with
  | Some v => v
  | None => if SortOrder_eqb sortOrder rsi_desc then -1 else 101
  end.

(** The comparator passed to [symbols.sort]. *)
Definition rsi_compare (sortOrder : SortOrder) (symbolsData : Obj SymbolData)
    (a b : string) : Q :=
  if SortOrder_eqb sortOrder rsi_desc
  then sort_key sortOrder symbolsData b - sort_key sortOrder symbolsData a
  else sort_key sortOrder symbolsData a - sort_key sortOrder symbolsData b.

(** [Array.prototype.sort(compareFn)]: since ES2019 the sort is stable, so for
    a consistent comparator its result is the stable sorted order, which this
    insertion sort computes: [x] goes before the first [y] with
    [compareFn(y, x) > 0]. *)
Fixpoint sort_insert (cmp : string -> string -> Q) (x : string) (l : list string)
    : list string :=
  match l with
  | [] => [x]
  | y :: l' => if Qle_bool (cmp y x) 0 then y :: sort_insert cmp x l' else x :: l
  end.

Definition js_sort (cmp : string -> string -> Q) (l : list string) : list string :=
  fold_left (fun acc x => sort_insert cmp x acc) l [].

(** The [displayedSymbols] memo. *)
Definition displayedSymbols (searchTerm : string) (showFavoritesOnly : bool)
    (favorites : list string) (sortOrder : SortOrder)
    (symbolsData : Obj SymbolData) (userSymbols : list string) : list string :=
  let symbols :=
    filter (fun symbol => str_includes (toLowerCase symbol) (toLowerCase searchTerm))
      userSymbols in
  let symbols :=
    if showFavoritesOnly then filter (fun s => includes favorites s) symbols
    else symbols in
  if negb (SortOrder_eqb sortOrder sort_default)
     && negb (Nat.eqb (length (obj_keys symbolsData)) 0)
  then js_sort (rsi_compare sortOrder symbolsData) symbols
  else symbols.

(** The two filters of [displayedSymbols], before the sort. *)
Definition filtered_symbols (searchTerm : string) (showFavoritesOnly : bool)
    (favorites : list string) (userSymbols : list string) : list string :=
  let symbols :=
    filter (fun symbol => str_includes (toLowerCase symbol) (toLowerCase searchTerm))
      userSymbols in
  if showFavoritesOnly then filter (fun s => includes favorites s) symbols
  else symbols.

(** [a] may stay before [b] in the result of [symbols.sort(cmp)]. *)
Definition cmp_le (cmp : string -> string -> Q) (a b : string) : Prop := cmp a b <= 0.

(** ** Grid columns (components/Grid.tsx, [calculateColumns]) *)

(** [Math.max(2, Math.floor((window.innerWidth - 40) / (cellSize * 1.5 + 12)))] *)
Definition calculateColumns (innerWidth cellSize : Q) : Z :=
  let containerWidth := innerWidth - 40 in
  let cellWidth := cellSize * (3 # 2) + 12 in
  Z.max 2 (Qfloor (containerWidth / cellWidth)).

(** The [forEach] of [build_newData] run from a given accumulator. *)
Definition set_all (pairs : list (string * SymbolData)) (acc : Obj SymbolData) :=
  fold_left (fun acc '(k, data) => obj_set acc k data) pairs acc.

(** A toast whose kind agrees with its RSI value: an overbought toast
    carries a value of at least 70, an oversold one a value of at most 30. *)
Definition toast_ok (t : Toast.t) : bool :=
  match Toast.type t with
  | toast_overbought => Qle_bool overboughtThreshold (Toast.rsi t)
  | toast_oversold => Qle_bool (Toast.rsi t) oversoldThreshold
  end.

(** A toast that matches the state it was added in: it carries the latest
    RSI of its symbol and the current timeframe, which is on the alert
    allow-list, and its kind agrees with its value. *)
Definition toast_fits (st : AlertApp) (t : Toast.t) : Prop :=
  latest_rsi (symbolsData st) (Toast.symbol t) = Some (Toast.rsi t) /\
  Toast.timeframe t = timeframe st /\
  includes ALLOWED_TIMEFRAMES_FOR_ALERTS (Toast.timeframe t) = true /\
  toast_ok t = true.

(** ** Concrete inputs *)

Definition rsi_series (vs : list Q) : SymbolData :=
  mkSymbolData (map (fun v => mkRsiPoint 0 v) vs).

(** A snapshot with one symbol whose latest RSI value is [v]. *)
Definition tick_of (v : Q) : Obj SymbolData := [("BTCUSDT", rsi_series [40; v])].

Definition clock_from (t : Z) : nat -> Z := fun k => (t + Z.of_nat k)%Z.

Definition five_tick_start : AlertApp := mkAlertApp true "15m" [] [] [].

(** Five refresh ticks whose statuses are neutral, overbought, overbought,
    neutral, overbought. *)
Definition five_ticks : list (AppEvent * (nat -> Z)) :=
  [(DataLoaded (tick_of 50), clock_from 60000);
   (DataLoaded (tick_of 80), clock_from 120000);
   (DataLoaded (tick_of 80), clock_from 180000);
   (DataLoaded (tick_of 50), clock_from 240000);
   (DataLoaded (tick_of 80), clock_from 300000)].

(** A start state with alerting switched off (its default value). *)
Definition alerts_off_start : AlertApp := mkAlertApp false "15m" [] [] [].

Definition sample_toast (id : Z) : Toast.t :=
  Toast.mk "BTCUSDT" "15m" 75 toast_overbought id.

(** Two symbols reaching an extreme status on the same tick. *)
Definition two_alert_tick : Obj SymbolData :=
  [("BTCUSDT", rsi_series [75]); ("ETHUSDT", rsi_series [20])].

Definition btc_old : SymbolData := rsi_series [40].
Definition btc_new : SymbolData := rsi_series [60].
Definition eth_old : SymbolData := rsi_series [50].

Definition tracked : list string := ["BTCUSDT"; "ETHUSDT"].

(** The aggregator after a first successful cycle over [tracked]. *)
Definition agg_loaded : Aggregator :=
  run_agg agg_init [CycleStarted tracked "15m"; CycleSettled 0 [Some btc_old; Some eth_old]].

(** BTCUSDT's fetch resolves with new data, ETHUSDT's rejects. *)
Definition eth_fails (s : string) : FetchResult :=
  if String.eqb s "BTCUSDT" then Some btc_new else None.

(** Every fetch resolves. *)
Definition all_resolve (s : string) : FetchResult :=
  if String.eqb s "BTCUSDT" then Some btc_new else Some eth_old.

(** Data for a sorted view: two symbols with a value, one with an empty RSI
    series; a fourth tracked symbol has no entry at all. *)
Definition sort_data : Obj SymbolData :=
  [("AUSDT", rsi_series [50]); ("BUSDT", rsi_series [80]); ("CUSDT", rsi_series [])].

Definition sort_symbols : list string := ["AUSDT"; "BUSDT"; "CUSDT"; "DUSDT"].

(** A small stand-in for [JSON.parse] that accepts three documents. *)
Definition toy_JSON_parse (s : string) : option json :=
  if String.eqb s "true" then Some (JBool true)
  else if String.eqb s "false" then Some (JBool false)
  else if String.eqb s "[]" then Some (JArr [])
  else None.

(** Storage where every key holds truncated JSON. *)
Definition corrupted_storage (key : string) : option string := Some "[1,".

(** ** Lemmas on JS objects *)

Lemma obj_get_set {A} (o : Obj A) k v s :
  obj_get (obj_set o k v) s = if String.eqb s k then Some v else obj_get o s.
Proof.
  induction o as [| [k' v'] o IH]; simpl.
  - reflexivity.
  - destruct (String.eqb k k') eqn:Ek; simpl.
    + apply String.eqb_eq in Ek; subst k'.
      destruct (String.eqb s k); reflexivity.
    + rewrite IH. destruct (String.eqb s k) eqn:Es; [|reflexivity].
      apply String.eqb_eq in Es; subst s. now rewrite Ek.
Qed.

Lemma obj_set_same {A} (o : Obj A) k v :
  obj_get o k = Some v -> obj_set o k v = o.
Proof.
  induction o as [| [k' v'] o IH]; simpl; [discriminate|].
  destruct (String.eqb k k') eqn:Ek.
  - now intros [= ->].
  - intros H. now rewrite (IH H).
Qed.

Lemma obj_get_remove {A} (o : Obj A) s k :
  String.eqb k s = false -> obj_get (obj_remove o s) k = obj_get o k.
Proof.
  intros Hk. induction o as [| [k' v'] o IH]; simpl; [reflexivity|].
  destruct (String.eqb k' s) eqn:Es; simpl.
  - apply String.eqb_eq in Es; subst k'. rewrite Hk. exact IH.
  - now rewrite IH.
Qed.

Lemma obj_keys_remove {A} (o : Obj A) s :
  obj_keys (obj_remove o s) = filter (fun k => negb (String.eqb k s)) (obj_keys o).
Proof.
  induction o as [| [k' v'] o IH]; simpl; [reflexivity|].
  destruct (String.eqb k' s); simpl; now rewrite IH.
Qed.

(** ** Lemmas on the alert effect *)

Lemma alert_symbol_eq tf clk d last nm added s :
  alert_symbol tf clk d last (nm, added) s =
  match latest_rsi d s with
  | None => (nm, added)
  | Some v =>
      (obj_set nm s (classify v),
       if should_notify (previous_status last s) (classify v)
       then addToast clk added s tf v (toast_type_of (classify v))
       else added)
  end.
Proof.
  unfold alert_symbol, latest_rsi.
  destruct (obj_get d s) as [sd|]; [|reflexivity].
  destruct (Nat.eqb (length (rsi sd)) 0) eqn:El; [reflexivity|].
  destruct (nth_error (rsi sd) (length (rsi sd) - 1)) as [p|] eqn:Ep.
  - simpl. unfold classify, should_notify.
    destruct (Qle_bool overboughtThreshold (value p));
      [| destruct (Qle_bool (value p) oversoldThreshold)];
      destruct (previous_status last s); reflexivity.
  - apply nth_error_None in Ep. apply Nat.eqb_neq in El. lia.
Qed.

Lemma alert_fold_status tf clk d last ks m a s :
  obj_get (fst (fold_left (alert_symbol tf clk d last) ks (m, a))) s =
  match existsb (String.eqb s) ks, latest_rsi d s with
  | true, Some v => Some (classify v)
  | _, _ => obj_get m s
  end.
Proof.
  revert m a. induction ks as [| k ks IH]; intros m a; cbn [fold_left existsb].
  - destruct (latest_rsi d s); reflexivity.
  - rewrite alert_symbol_eq.
    destruct (latest_rsi d k) as [vk|] eqn:Ek.
    + rewrite IH, obj_get_set.
      destruct (String.eqb s k) eqn:Esk; simpl.
      * apply String.eqb_eq in Esk; subst k. rewrite Ek.
        destruct (existsb (String.eqb s) ks); reflexivity.
      * reflexivity.
    + rewrite IH. destruct (String.eqb s k) eqn:Esk; simpl; [|reflexivity].
      apply String.eqb_eq in Esk; subst k. rewrite Ek.
      destruct (existsb (String.eqb s) ks); reflexivity.
Qed.

Lemma toasts_for_app s l1 l2 :
  toasts_for s (l1 ++ l2) = (toasts_for s l1 ++ toasts_for s l2)%list.
Proof. unfold toasts_for. apply filter_app. Qed.

(** How many toasts for [s] one effect run adds: one per occurrence of [s]
    among the keys, when its status changed to an extreme one. *)
Lemma alert_fold_toasts tf clk d last ks m a s :
  length (toasts_for s (snd (fold_left (alert_symbol tf clk d last) ks (m, a)))) =
  (length (toasts_for s a)
   + count_key s ks *
       match latest_rsi d s with
       | Some v => if should_notify (previous_status last s) (classify v) then 1 else 0
       | None => 0
       end)%nat.
Proof.
  revert m a. induction ks as [| k ks IH]; intros m a; cbn [fold_left].
  - unfold count_key. simpl. lia.
  - rewrite alert_symbol_eq. unfold count_key in *. cbn [filter].
    destruct (latest_rsi d k) as [vk|] eqn:Ek.
    + rewrite IH.
      destruct (String.eqb s k) eqn:Esk; simpl.
      * apply String.eqb_eq in Esk; subst k. rewrite Ek.
        destruct (should_notify (previous_status last s) (classify vk)); simpl.
        -- unfold addToast. rewrite toasts_for_app, length_app. simpl.
           rewrite String.eqb_refl. simpl. lia.
        -- lia.
      * destruct (should_notify (previous_status last k) (classify vk)); [|reflexivity].
        unfold addToast. rewrite toasts_for_app, length_app. simpl.
        rewrite String.eqb_sym, Esk. simpl. lia.
    + rewrite IH. destruct (String.eqb s k) eqn:Esk; simpl; [|reflexivity].
      apply String.eqb_eq in Esk; subst k. rewrite Ek. lia.
Qed.

Lemma alert_effect_closed en tf d last clk :
  alert_gate en tf d = false -> alert_effect en tf d last clk = (None, []).
Proof.
  unfold alert_gate, alert_effect. intros H.
  destruct en, (includes ALLOWED_TIMEFRAMES_FOR_ALERTS tf),
    (Nat.eqb (length (obj_keys d)) 0); simpl in *; congruence.
Qed.

Lemma alert_effect_open en tf d last clk :
  alert_gate en tf d = true ->
  alert_effect en tf d last clk =
  (if status_map_eq_dec (fst (alert_fold tf clk d last)) last then None
   else Some (fst (alert_fold tf clk d last)),
   snd (alert_fold tf clk d last)).
Proof.
  unfold alert_gate, alert_effect, alert_fold. intros H.
  destruct en, (includes ALLOWED_TIMEFRAMES_FOR_ALERTS tf),
    (Nat.eqb (length (obj_keys d)) 0); simpl in *; try congruence.
  destruct (fold_left _ _ _) as [nm added]; simpl.
  destruct (status_map_eq_dec nm last); reflexivity.
Qed.

(** Re-running the fold from its own result changes nothing and adds nothing. *)
Lemma alert_fold_fixed tf clk d m ks a :
  (forall k v, In k ks -> latest_rsi d k = Some v -> obj_get m k = Some (classify v)) ->
  fold_left (alert_symbol tf clk d m) ks (m, a) = (m, a).
Proof.
  induction ks as [| k ks IH]; intros H; cbn [fold_left]; [reflexivity|].
  rewrite alert_symbol_eq.
  destruct (latest_rsi d k) as [v|] eqn:Ek.
  - assert (Hm : obj_get m k = Some (classify v)) by (apply H; simpl; auto).
    rewrite (obj_set_same _ _ _ Hm).
    unfold previous_status, should_notify, AlertStatus_eqb. rewrite Hm.
    destruct (AlertStatus_eq_dec (classify v) (classify v)); [|congruence]. simpl.
    apply IH. intros k' v' Hin. apply H. simpl; auto.
  - apply IH. intros k' v' Hin. apply H. simpl; auto.
Qed.

Lemma alert_effect_rerun_quiet en tf d last clk clk' m added :
  alert_effect en tf d last clk = (Some m, added) ->
  alert_effect en tf d m clk' = (None, []).
Proof.
  destruct (alert_gate en tf d) eqn:G.
  2:{ rewrite alert_effect_closed by exact G. discriminate. }
  rewrite !alert_effect_open by exact G.
  destruct (status_map_eq_dec _ _); [discriminate|]. intros [= Hm _].
  assert (Hf : alert_fold tf clk' d m = (m, [])).
  { unfold alert_fold. apply alert_fold_fixed.
    intros k v Hin Hk. rewrite <- Hm. unfold alert_fold.
    rewrite alert_fold_status, Hk.
    replace (existsb (String.eqb k) (obj_keys d)) with true; [reflexivity|].
    symmetry. apply existsb_exists. exists k. split; [exact Hin | apply String.eqb_refl]. }
  rewrite Hf. simpl. destruct (status_map_eq_dec m m); [reflexivity | congruence].
Qed.

Lemma commit_open clk st :
  alert_gate (areAlertsEnabled st) (timeframe st) (symbolsData st) = true ->
  commit clk st =
  mkAlertApp (areAlertsEnabled st) (timeframe st) (symbolsData st)
    (fst (alert_fold (timeframe st) clk (symbolsData st) (lastAlertedRsiStatus st)))
    (toasts st ++ snd (alert_fold (timeframe st) clk (symbolsData st)
                         (lastAlertedRsiStatus st)))%list.
Proof.
  intros G. unfold commit, run_alert_effect.
  pose proof (alert_effect_open _ _ _ (lastAlertedRsiStatus st) clk G) as Hopen.
  rewrite Hopen.
  destruct (status_map_eq_dec _ _) as [E|NE].
  - rewrite E. reflexivity.
  - simpl.
    assert (Hq : alert_effect (areAlertsEnabled st) (timeframe st) (symbolsData st)
                   (fst (alert_fold (timeframe st) clk (symbolsData st)
                          (lastAlertedRsiStatus st))) clk = (None, [])).
    { exact (alert_effect_rerun_quiet _ _ _ _ _ _ _ _ Hopen). }
    rewrite Hq. simpl. now rewrite app_nil_r.
Qed.

Lemma commit_closed clk st :
  alert_gate (areAlertsEnabled st) (timeframe st) (symbolsData st) = false ->
  commit clk st = st.
Proof.
  intros G. unfold commit, run_alert_effect.
  rewrite (alert_effect_closed _ _ _ (lastAlertedRsiStatus st) clk G). simpl.
  rewrite app_nil_r. destruct st; reflexivity.
Qed.

Lemma obj_get_in_keys {A} (o : Obj A) s x :
  obj_get o s = Some x -> In s (obj_keys o).
Proof.
  induction o as [| [k v] o IH]; simpl; [discriminate|].
  destruct (String.eqb s k) eqn:E.
  - apply String.eqb_eq in E. auto.
  - intros H. right. exact (IH H).
Qed.

Lemma latest_rsi_in_keys d s v :
  latest_rsi d s = Some v -> In s (obj_keys d).
Proof.
  unfold latest_rsi. destruct (obj_get d s) eqn:E; [|discriminate].
  intros _. exact (obj_get_in_keys _ _ _ E).
Qed.

Lemma existsb_eqb_In s ks : In s ks -> existsb (String.eqb s) ks = true.
Proof.
  intros H. apply existsb_exists. exists s. split; [exact H | apply String.eqb_refl].
Qed.

Lemma count_key_notin s ks : ~ In s ks -> count_key s ks = 0%nat.
Proof.
  unfold count_key. induction ks as [| k ks IH]; simpl; [reflexivity|].
  intros H. destruct (String.eqb s k) eqn:E.
  - apply String.eqb_eq in E. subst k. exfalso. auto.
  - apply IH. auto.
Qed.

Lemma count_key_nodup s ks : NoDup ks -> In s ks -> count_key s ks = 1%nat.
Proof.
  intros Hnd. induction Hnd as [| k ks Hk Hnd IH]; simpl; [contradiction|].
  unfold count_key in *. simpl. intros Hin.
  destruct (String.eqb s k) eqn:E.
  - apply String.eqb_eq in E. subst k. simpl.
    pose proof (count_key_notin s ks Hk) as H0. unfold count_key in H0. lia.
  - apply IH. destruct Hin as [-> | Hin]; [|exact Hin].
    rewrite String.eqb_refl in E. discriminate.
Qed.

Lemma gate_open_of_latest st d s v :
  areAlertsEnabled st = true ->
  includes ALLOWED_TIMEFRAMES_FOR_ALERTS (timeframe st) = true ->
  latest_rsi d s = Some v ->
  alert_gate (areAlertsEnabled st) (timeframe st) d = true.
Proof.
  intros He Ht Hl. unfold alert_gate. rewrite He, Ht. simpl.
  pose proof (latest_rsi_in_keys _ _ _ Hl) as Hin.
  destruct (obj_keys d); [contradiction | reflexivity].
Qed.

(** A refresh tick that delivers the snapshot [d]. *)
Lemma app_step_data_loaded clk st d :
  app_step clk st (DataLoaded d) =
  commit clk (mkAlertApp (areAlertsEnabled st) (timeframe st) d
                (lastAlertedRsiStatus st) (toasts st)).
Proof. reflexivity. Qed.

Lemma load_saved_default JSON_parse (saved : option string) (dflt : json) :
  malformed_or_absent JSON_parse saved -> load_saved JSON_parse saved dflt = dflt.
Proof.
  intros [-> | (s & -> & Hp)]; simpl; [reflexivity |].
  destruct (String.eqb s ""); [reflexivity | now rewrite Hp].
Qed.

Example five_ticks_statuses :
  map (fun v => classify v) [50; 80; 80; 50; 80] =
  [neutral; overbought; overbought; neutral; overbought].
Proof. reflexivity. Qed.

Example five_ticks_toast_counts :
  map (fun st => length (toasts st)) (run_app_trace five_tick_start five_ticks) =
  [0; 1; 1; 1; 2]%nat.
Proof. vm_compute. reflexivity. Qed.

Lemma latest_rsi_last d s sd pts p :
  obj_get d s = Some sd -> rsi sd = (pts ++ [p])%list -> latest_rsi d s = Some (value p).
Proof.
  intros Hg Hr. unfold latest_rsi. rewrite Hg, Hr, length_app. simpl.
  replace (Nat.eqb (length pts + 1) 0) with false by (symmetry; apply Nat.eqb_neq; lia).
  replace (length pts + 1 - 1)%nat with (length pts) by lia.
  rewrite nth_error_app2, Nat.sub_diag by lia. reflexivity.
Qed.

(** A refresh tick with alerting off, or on a timeframe outside the
    allow-list, stores the data and nothing else: the recorded statuses and
    the toast queue stay as they were. *)
Lemma data_loaded_gate_closed clk st d :
  areAlertsEnabled st = false \/
  includes ALLOWED_TIMEFRAMES_FOR_ALERTS (timeframe st) = false ->
  lastAlertedRsiStatus (app_step clk st (DataLoaded d)) = lastAlertedRsiStatus st /\
  toasts (app_step clk st (DataLoaded d)) = toasts st.
Proof.
  intros H. rewrite app_step_data_loaded, commit_closed; [simpl; auto|].
  simpl. unfold alert_gate.
  destruct H as [-> | ->]; [reflexivity|]. now rewrite andb_false_r.
Qed.

(** C2 (as amended). While alerting is enabled and the timeframe is in the
    allow-list, a refresh tick adds a toast for a symbol with an RSI value
    if and only if the freshly computed status differs from the recorded one
    and is overbought or oversold, and adds at most one; on the five ticks
    neutral, overbought, overbought, neutral, overbought the toast queue
    holds 0, 1, 1, 1, 2 toasts, the two coming from ticks 2 and 5. When
    alerting is off or the timeframe is not allowed, a tick computes no
    status (the recorded statuses stay as they were) and adds no toast. *)
Theorem alert_notification_on_transition :
  (forall clk st d s v,
     areAlertsEnabled st = true ->
     includes ALLOWED_TIMEFRAMES_FOR_ALERTS (timeframe st) = true ->
     NoDup (obj_keys d) ->
     latest_rsi d s = Some v ->
     exists added,
       toasts (app_step clk st (DataLoaded d)) = (toasts st ++ added)%list /\
       (length (toasts_for s added) <= 1)%nat /\
       (toasts_for s added <> [] <->
        obj_get (lastAlertedRsiStatus st) s <> Some (classify v) /\
        (classify v = overbought \/ classify v = oversold))) /\
  map (fun st => length (toasts st)) (run_app_trace five_tick_start five_ticks) =
  [0; 1; 1; 1; 2]%nat /\
  (forall clk st d,
     areAlertsEnabled st = false \/
     includes ALLOWED_TIMEFRAMES_FOR_ALERTS (timeframe st) = false ->
     lastAlertedRsiStatus (app_step clk st (DataLoaded d)) = lastAlertedRsiStatus st /\
     toasts (app_step clk st (DataLoaded d)) = toasts st).
Proof.
  split; [| split; [vm_compute; reflexivity | exact data_loaded_gate_closed]].
  intros clk st d s v He Ht Hnd Hl.
  rewrite app_step_data_loaded, commit_open
    by (simpl; eapply gate_open_of_latest; eauto).
  simpl. eexists; split; [reflexivity|].
  pose proof (alert_fold_toasts (timeframe st) clk d (lastAlertedRsiStatus st)
                (obj_keys d) (lastAlertedRsiStatus st) [] s) as Hc.
  rewrite count_key_nodup in Hc by eauto using latest_rsi_in_keys.
  rewrite Hl in Hc. unfold alert_fold. simpl in Hc.
  split; [destruct (should_notify _ _); lia|].
  rewrite <- length_zero_iff_nil, Hc.
  unfold should_notify, previous_status, AlertStatus_eqb.
  destruct (obj_get (lastAlertedRsiStatus st) s) as [ps|];
    [destruct ps|]; destruct (classify v); simpl;
    split; intuition congruence.
Qed.

Lemma alert_notification_on_transition_witness :
  (areAlertsEnabled five_tick_start = true /\
   includes ALLOWED_TIMEFRAMES_FOR_ALERTS (timeframe five_tick_start) = true /\
   NoDup (obj_keys (tick_of 80)) /\
   latest_rsi (tick_of 80) "BTCUSDT" = Some 80) /\
  (exists added,
    toasts (app_step (clock_from 0) five_tick_start (DataLoaded (tick_of 80))) =
      (toasts five_tick_start ++ added)%list /\
    (length (toasts_for "BTCUSDT" added) <= 1)%nat /\
    (toasts_for "BTCUSDT" added <> [] <->
     obj_get (lastAlertedRsiStatus five_tick_start) "BTCUSDT" <> Some (classify 80) /\
     (classify 80 = overbought \/ classify 80 = oversold))) /\
  ((areAlertsEnabled alerts_off_start = false \/
    includes ALLOWED_TIMEFRAMES_FOR_ALERTS (timeframe alerts_off_start) = false) /\
   lastAlertedRsiStatus (app_step (clock_from 0) alerts_off_start (DataLoaded (tick_of 80))) =
     lastAlertedRsiStatus alerts_off_start /\
   toasts (app_step (clock_from 0) alerts_off_start (DataLoaded (tick_of 80))) =
     toasts alerts_off_start).
Proof.
  assert (H1 : areAlertsEnabled five_tick_start = true) by reflexivity.
  assert (H2 : includes ALLOWED_TIMEFRAMES_FOR_ALERTS (timeframe five_tick_start) = true)
    by reflexivity.
  assert (H3 : NoDup (obj_keys (tick_of 80)))
    by (simpl; constructor; [intros [] | constructor]).
  assert (H4 : latest_rsi (tick_of 80) "BTCUSDT" = Some 80) by reflexivity.
  assert (H5 : areAlertsEnabled alerts_off_start = false \/
                includes ALLOWED_TIMEFRAMES_FOR_ALERTS (timeframe alerts_off_start) = false)
    by (left; reflexivity).
  split; [repeat split; assumption|].
  split.
  - exact (proj1 alert_notification_on_transition (clock_from 0) five_tick_start
             (tick_of 80) "BTCUSDT" 80 H1 H2 H3 H4).
  - split; [exact H5|].
    exact (proj2 (proj2 alert_notification_on_transition) (clock_from 0) alerts_off_start
             (tick_of 80) H5).
Defined.

(** C2 fails as stated: with alerting disabled, the tick moving BTCUSDT from
    no recorded status to overbought adds no toast. *)
Lemma alert_notification_on_transition_counterexample :
  ~ (toasts_for "BTCUSDT"
       (toasts (app_step (clock_from 0) alerts_off_start (DataLoaded (tick_of 80)))) <> []
     <->
     obj_get (lastAlertedRsiStatus alerts_off_start) "BTCUSDT" <> Some (classify 80) /\
     (classify 80 = overbought \/ classify 80 = oversold)).
Proof.
  vm_compute. intros [_ H]. apply H; [split; [discriminate | left; reflexivity] | reflexivity].
Qed.

Lemma commit_status_open clk st s v :
  areAlertsEnabled st = true ->
  includes ALLOWED_TIMEFRAMES_FOR_ALERTS (timeframe st) = true ->
  latest_rsi (symbolsData st) s = Some v ->
  obj_get (lastAlertedRsiStatus (commit clk st)) s = Some (classify v).
Proof.
  intros He Ht Hl.
  rewrite commit_open by (eapply gate_open_of_latest; eauto).
  simpl. unfold alert_fold. rewrite alert_fold_status, Hl.
  now rewrite existsb_eqb_In by eauto using latest_rsi_in_keys.
Qed.

(** C3 (as amended). While alerting is enabled and the timeframe is in the
    allow-list, after a refresh tick the recorded status of a symbol whose
    RSI series ends with the point [p] is computed from [p] alone:
    overbought when its value is >= 70, oversold when it is <= 30, neutral
    otherwise, whether or not a toast was added. When alerting is off or
    the timeframe is not allowed, nothing is computed and the recorded
    statuses stay as they were. *)
Theorem status_from_latest_rsi :
  (forall clk st d s sd pts p,
     areAlertsEnabled st = true ->
     includes ALLOWED_TIMEFRAMES_FOR_ALERTS (timeframe st) = true ->
     obj_get d s = Some sd ->
     rsi sd = (pts ++ [p])%list ->
     obj_get (lastAlertedRsiStatus (app_step clk st (DataLoaded d))) s =
     Some (if Qle_bool 70 (value p) then overbought
           else if Qle_bool (value p) 30 then oversold
           else neutral)) /\
  (forall clk st d,
     areAlertsEnabled st = false \/
     includes ALLOWED_TIMEFRAMES_FOR_ALERTS (timeframe st) = false ->
     lastAlertedRsiStatus (app_step clk st (DataLoaded d)) = lastAlertedRsiStatus st).
Proof.
  split.
  - intros clk st d s sd pts p He Ht Hg Hr. rewrite app_step_data_loaded.
    apply commit_status_open; simpl; [exact He | exact Ht |].
    exact (latest_rsi_last _ _ _ _ _ Hg Hr).
  - intros clk st d H. exact (proj1 (data_loaded_gate_closed clk st d H)).
Qed.

Lemma status_from_latest_rsi_witness :
  (areAlertsEnabled five_tick_start = true /\
   includes ALLOWED_TIMEFRAMES_FOR_ALERTS (timeframe five_tick_start) = true /\
   obj_get (tick_of 25) "BTCUSDT" = Some (rsi_series [40; 25]) /\
   rsi (rsi_series [40; 25]) = ([mkRsiPoint 0 40] ++ [mkRsiPoint 0 25])%list) /\
  obj_get (lastAlertedRsiStatus
             (app_step (clock_from 0) five_tick_start (DataLoaded (tick_of 25))))
          "BTCUSDT" =
  Some (if Qle_bool 70 (value (mkRsiPoint 0 25)) then overbought
        else if Qle_bool (value (mkRsiPoint 0 25)) 30 then oversold
        else neutral) /\
  ((areAlertsEnabled alerts_off_start = false \/
    includes ALLOWED_TIMEFRAMES_FOR_ALERTS (timeframe alerts_off_start) = false) /\
   lastAlertedRsiStatus (app_step (clock_from 0) alerts_off_start (DataLoaded (tick_of 80))) =
     lastAlertedRsiStatus alerts_off_start).
Proof.
  assert (H5 : areAlertsEnabled alerts_off_start = false \/
                includes ALLOWED_TIMEFRAMES_FOR_ALERTS (timeframe alerts_off_start) = false)
    by (left; reflexivity).
  split; [repeat split; reflexivity|].
  split.
  - apply (proj1 status_from_latest_rsi) with (sd := rsi_series [40; 25])
      (pts := [mkRsiPoint 0 40]); reflexivity.
  - split; [exact H5|].
    exact (proj2 status_from_latest_rsi (clock_from 0) alerts_off_start (tick_of 80) H5).
Defined.

(** C3 fails as stated: with alerting disabled (the default), a tick whose
    latest RSI value is 80 leaves BTCUSDT without a recorded status. *)
Lemma status_from_latest_rsi_counterexample :
  obj_get (lastAlertedRsiStatus
             (app_step (clock_from 0) alerts_off_start (DataLoaded (tick_of 80))))
          "BTCUSDT" = None /\
  latest_rsi (tick_of 80) "BTCUSDT" = Some 80 /\
  classify 80 = overbought.
Proof. vm_compute. repeat split. Qed.

Lemma commit_fields clk st :
  areAlertsEnabled (commit clk st) = areAlertsEnabled st /\
  timeframe (commit clk st) = timeframe st /\
  symbolsData (commit clk st) = symbolsData st.
Proof.
  destruct (alert_gate (areAlertsEnabled st) (timeframe st) (symbolsData st)) eqn:G.
  - rewrite commit_open by exact G. simpl. auto.
  - rewrite commit_closed by exact G. auto.
Qed.

(** A commit whose state ends with alerting off, or on a timeframe outside
    the allow-list, changed nothing. *)
Lemma commit_inactive clk st :
  areAlertsEnabled (commit clk st) = false \/
  includes ALLOWED_TIMEFRAMES_FOR_ALERTS (timeframe (commit clk st)) = false ->
  commit clk st = st.
Proof.
  destruct (commit_fields clk st) as (He & Ht & _). rewrite He, Ht. intros H.
  apply commit_closed. unfold alert_gate.
  destruct H as [-> | ->]; [reflexivity|]. now rewrite andb_false_r.
Qed.

Lemma removeToast_incl id q t : In t (removeToast id q) -> In t q.
Proof. unfold removeToast. intros H. apply filter_In in H. tauto. Qed.

Lemma notify_count_zero last s v :
  obj_get last s = Some (classify v) ->
  should_notify (previous_status last s) (classify v) = false.
Proof.
  intros H. unfold should_notify, previous_status, AlertStatus_eqb. rewrite H.
  destruct (AlertStatus_eq_dec (classify v) (classify v)); [reflexivity | congruence].
Qed.

Lemma classify_overbought v : (70 <= v)%Q -> classify v = overbought.
Proof.
  intros H. unfold classify, overboughtThreshold.
  replace (Qle_bool 70 v) with true; [reflexivity|].
  symmetry. apply Qle_bool_iff. exact H.
Qed.

(** C5. The effect only tracks statuses and adds toasts while alerting is
    enabled and the timeframe is one of 15m, 30m, 1h, 2h, 4h, 8h, 1d, 3d,
    1w: after any event that leaves alerting off or the timeframe outside
    that list, the status map is unchanged and no toast was added. Between
    two ticks on which a symbol is overbought, switching alerting off and on
    again adds no toast for that symbol, neither while off nor on
    re-enabling. *)
Theorem alerts_gated_by_enabled_and_timeframe :
  (forall clk st ev,
     areAlertsEnabled (app_step clk st ev) = false \/
     includes ALLOWED_TIMEFRAMES_FOR_ALERTS (timeframe (app_step clk st ev)) = false ->
     lastAlertedRsiStatus (app_step clk st ev) = lastAlertedRsiStatus st /\
     (forall t, In t (toasts (app_step clk st ev)) -> In t (toasts st))) /\
  ALLOWED_TIMEFRAMES_FOR_ALERTS =
    ["15m"; "30m"; "1h"; "2h"; "4h"; "8h"; "1d"; "3d"; "1w"] /\
  (forall clk1 clk2 clk3 clk4 st d1 d2 s v1 v2,
     areAlertsEnabled st = true ->
     includes ALLOWED_TIMEFRAMES_FOR_ALERTS (timeframe st) = true ->
     latest_rsi d1 s = Some v1 -> (70 <= v1)%Q ->
     latest_rsi d2 s = Some v2 -> (70 <= v2)%Q ->
     toasts_for s (toasts (run_app (app_step clk1 st (DataLoaded d1))
                             [(AlertsToggled, clk2); (DataLoaded d2, clk3);
                              (AlertsToggled, clk4)])) =
     toasts_for s (toasts (app_step clk1 st (DataLoaded d1)))).
Proof.
  split; [| split; [reflexivity|]].
  - intros clk st ev H.
    destruct ev as [d | | tf | id]; simpl in H |- *.
    + rewrite (commit_inactive _ _ H) in H |- *. simpl. auto.
    + rewrite (commit_inactive _ _ H) in H |- *. simpl. auto.
    + destruct (String.eqb tf (timeframe st)); [auto|].
      rewrite (commit_inactive _ _ H) in H |- *. simpl. auto.
    + split; [reflexivity|]. apply removeToast_incl.
  - intros clk1 clk2 clk3 clk4 st d1 d2 s v1 v2 He Ht Hl1 Hv1 Hl2 Hv2.
    set (st1 := app_step clk1 st (DataLoaded d1)).
    assert (F1 : areAlertsEnabled st1 = true /\ timeframe st1 = timeframe st).
    { unfold st1. rewrite app_step_data_loaded.
      destruct (commit_fields clk1 (mkAlertApp (areAlertsEnabled st) (timeframe st) d1
                                      (lastAlertedRsiStatus st) (toasts st)))
        as (E1 & E2 & _).
      rewrite E1, E2. auto. }
    destruct F1 as [He1 Ht1].
    assert (S1 : obj_get (lastAlertedRsiStatus st1) s = Some overbought).
    { unfold st1. rewrite app_step_data_loaded, <- (classify_overbought v1 Hv1).
      apply commit_status_open; simpl; assumption. }
    cbn [run_app].
    (* alerting switched off: the effect returns early *)
    assert (T2 : app_step clk2 st1 AlertsToggled =
                 mkAlertApp false (timeframe st1) (symbolsData st1)
                   (lastAlertedRsiStatus st1) (toasts st1)).
    { simpl. rewrite He1. apply commit_closed. reflexivity. }
    rewrite T2.
    (* the tick while off: the effect returns early *)
    assert (T3 : app_step clk3 (mkAlertApp false (timeframe st1) (symbolsData st1)
                                  (lastAlertedRsiStatus st1) (toasts st1))
                   (DataLoaded d2) =
                 mkAlertApp false (timeframe st1) d2
                   (lastAlertedRsiStatus st1) (toasts st1)).
    { rewrite app_step_data_loaded. apply commit_closed. reflexivity. }
    rewrite T3. simpl.
    (* alerting switched on again: the effect runs on [d2] *)
    assert (G : alert_gate true (timeframe st1) d2 = true).
    { assert (Ht1' : includes ALLOWED_TIMEFRAMES_FOR_ALERTS (timeframe st1) = true)
        by (rewrite Ht1; exact Ht).
      pose proof (gate_open_of_latest st1 d2 s v2 He1 Ht1' Hl2) as G.
      rewrite He1 in G. exact G. }
    rewrite commit_open by exact G.
    simpl. rewrite toasts_for_app.
    assert (Z0 : length (toasts_for s (snd (alert_fold (timeframe st1) clk4 d2
                                              (lastAlertedRsiStatus st1)))) = 0%nat).
    { unfold alert_fold. rewrite alert_fold_toasts, Hl2.
      rewrite notify_count_zero by (rewrite (classify_overbought v2 Hv2); exact S1).
      simpl. lia. }
    apply length_zero_iff_nil in Z0. rewrite Z0, app_nil_r. reflexivity.
Qed.

Lemma alerts_gated_by_enabled_and_timeframe_witness :
  (areAlertsEnabled five_tick_start = true /\
   includes ALLOWED_TIMEFRAMES_FOR_ALERTS (timeframe five_tick_start) = true /\
   latest_rsi (tick_of 80) "BTCUSDT" = Some 80 /\ (70 <= 80)%Q /\
   latest_rsi (tick_of 90) "BTCUSDT" = Some 90 /\ (70 <= 90)%Q) /\
  toasts_for "BTCUSDT"
    (toasts (run_app (app_step (clock_from 0) five_tick_start (DataLoaded (tick_of 80)))
               [(AlertsToggled, clock_from 10); (DataLoaded (tick_of 90), clock_from 20);
                (AlertsToggled, clock_from 30)])) =
  toasts_for "BTCUSDT"
    (toasts (app_step (clock_from 0) five_tick_start (DataLoaded (tick_of 80)))).
Proof.
  assert (H1 : areAlertsEnabled five_tick_start = true) by reflexivity.
  assert (H2 : includes ALLOWED_TIMEFRAMES_FOR_ALERTS (timeframe five_tick_start) = true)
    by reflexivity.
  assert (H3 : latest_rsi (tick_of 80) "BTCUSDT" = Some 80) by reflexivity.
  assert (H4 : (70 <= 80)%Q) by (unfold Qle; simpl; lia).
  assert (H5 : latest_rsi (tick_of 90) "BTCUSDT" = Some 90) by reflexivity.
  assert (H6 : (70 <= 90)%Q) by (unfold Qle; simpl; lia).
  split; [repeat split; assumption|].
  exact (proj2 (proj2 alerts_gated_by_enabled_and_timeframe)
           (clock_from 0) (clock_from 10) (clock_from 20) (clock_from 30)
           five_tick_start (tick_of 80) (tick_of 90) "BTCUSDT" 80 90
           H1 H2 H3 H4 H5 H6).
Defined.

Lemma latest_rsi_remove d s k :
  String.eqb k s = false -> latest_rsi (obj_remove d s) k = latest_rsi d k.
Proof. intros H. unfold latest_rsi. now rewrite obj_get_remove. Qed.

(** Dropping a symbol without RSI values from the keys changes no step. *)
Lemma alert_fold_skip tf clk d last s ks acc :
  latest_rsi d s = None ->
  fold_left (alert_symbol tf clk d last) ks acc =
  fold_left (alert_symbol tf clk (obj_remove d s) last)
    (filter (fun k => negb (String.eqb k s)) ks) acc.
Proof.
  intros Hs. revert acc. induction ks as [| k ks IH]; intros [m a]; [reflexivity|].
  cbn [fold_left filter].
  destruct (String.eqb k s) eqn:Eks; simpl negb; cbv iota.
  - apply String.eqb_eq in Eks. subst k.
    rewrite alert_symbol_eq, Hs. apply IH.
  - cbn [fold_left]. rewrite !alert_symbol_eq, latest_rsi_remove by exact Eks.
    destruct (latest_rsi d k); apply IH.
Qed.

Lemma latest_rsi_empty d s sd :
  obj_get d s = Some sd -> rsi sd = [] -> latest_rsi d s = None.
Proof. intros Hg Hr. unfold latest_rsi. now rewrite Hg, Hr. Qed.

(** C9. On a refresh tick, a symbol whose RSI series is empty is skipped:
    its recorded status is unchanged, no toast is added for it, and the
    status map and toast queue after the tick are the same as after a tick
    whose snapshot lacks that symbol altogether. *)
Theorem empty_rsi_symbol_skipped clk st d s sd :
  obj_get d s = Some sd ->
  rsi sd = [] ->
  obj_get (lastAlertedRsiStatus (app_step clk st (DataLoaded d))) s =
    obj_get (lastAlertedRsiStatus st) s /\
  toasts_for s (toasts (app_step clk st (DataLoaded d))) = toasts_for s (toasts st) /\
  lastAlertedRsiStatus (app_step clk st (DataLoaded d)) =
    lastAlertedRsiStatus (app_step clk st (DataLoaded (obj_remove d s))) /\
  toasts (app_step clk st (DataLoaded d)) =
    toasts (app_step clk st (DataLoaded (obj_remove d s))).
Proof.
  intros Hg Hr. pose proof (latest_rsi_empty _ _ _ Hg Hr) as Hs.
  rewrite !app_step_data_loaded.
  destruct st as [en tf d0 last ts]. simpl.
  assert (Hfold : alert_fold tf clk d last = alert_fold tf clk (obj_remove d s) last).
  { unfold alert_fold. rewrite (alert_fold_skip _ _ _ _ _ _ _ Hs), obj_keys_remove.
    reflexivity. }
  assert (Hstat : obj_get (fst (alert_fold tf clk d last)) s = obj_get last s).
  { unfold alert_fold. rewrite alert_fold_status, Hs.
    destruct (existsb _ _); reflexivity. }
  assert (Hto : toasts_for s (snd (alert_fold tf clk d last)) = []).
  { apply length_zero_iff_nil. unfold alert_fold.
    rewrite alert_fold_toasts, Hs. simpl. lia. }
  pose proof (obj_get_in_keys _ _ _ Hg) as Hin.
  destruct (alert_gate en tf d) eqn:Gd.
  - rewrite (commit_open clk (mkAlertApp en tf d last ts)) by exact Gd. simpl.
    destruct (alert_gate en tf (obj_remove d s)) eqn:Gr.
    + rewrite (commit_open clk (mkAlertApp en tf (obj_remove d s) last ts)) by exact Gr.
      simpl. rewrite toasts_for_app, Hto, app_nil_r, Hstat, Hfold. auto.
    + rewrite (commit_closed clk (mkAlertApp en tf (obj_remove d s) last ts)) by exact Gr.
      simpl.
      assert (Hk : obj_keys (obj_remove d s) = []).
      { unfold alert_gate in Gd, Gr. destruct (en && includes _ tf); [|discriminate].
        simpl in Gr. destruct (obj_keys (obj_remove d s)); [reflexivity | discriminate]. }
      assert (Hf0 : alert_fold tf clk d last = (last, [])).
      { rewrite Hfold. unfold alert_fold. rewrite Hk. reflexivity. }
      rewrite Hf0. simpl. rewrite app_nil_r. auto.
  - rewrite (commit_closed clk (mkAlertApp en tf d last ts)) by exact Gd.
    assert (Gr : alert_gate en tf (obj_remove d s) = false).
    { unfold alert_gate in *. destruct (en && includes _ tf); [|reflexivity].
      simpl in Gd. destruct (obj_keys d); [contradiction | discriminate]. }
    rewrite (commit_closed clk (mkAlertApp en tf (obj_remove d s) last ts)) by exact Gr.
    simpl. auto.
Qed.

Lemma empty_rsi_symbol_skipped_witness :
  (obj_get [("ETHUSDT", rsi_series []); ("BTCUSDT", rsi_series [80])] "ETHUSDT" =
     Some (rsi_series []) /\ rsi (rsi_series []) = []) /\
  obj_get (lastAlertedRsiStatus
     (app_step (clock_from 0) five_tick_start
        (DataLoaded [("ETHUSDT", rsi_series []); ("BTCUSDT", rsi_series [80])])))
     "ETHUSDT" = obj_get (lastAlertedRsiStatus five_tick_start) "ETHUSDT" /\
  toasts_for "ETHUSDT" (toasts (app_step (clock_from 0) five_tick_start
        (DataLoaded [("ETHUSDT", rsi_series []); ("BTCUSDT", rsi_series [80])]))) =
    toasts_for "ETHUSDT" (toasts five_tick_start) /\
  lastAlertedRsiStatus (app_step (clock_from 0) five_tick_start
        (DataLoaded [("ETHUSDT", rsi_series []); ("BTCUSDT", rsi_series [80])])) =
    lastAlertedRsiStatus (app_step (clock_from 0) five_tick_start
        (DataLoaded (obj_remove [("ETHUSDT", rsi_series []); ("BTCUSDT", rsi_series [80])]
                       "ETHUSDT"))) /\
  toasts (app_step (clock_from 0) five_tick_start
        (DataLoaded [("ETHUSDT", rsi_series []); ("BTCUSDT", rsi_series [80])])) =
    toasts (app_step (clock_from 0) five_tick_start
        (DataLoaded (obj_remove [("ETHUSDT", rsi_series []); ("BTCUSDT", rsi_series [80])]
                       "ETHUSDT"))).
Proof.
  split; [split; reflexivity|].
  apply empty_rsi_symbol_skipped with (sd := rsi_series []); reflexivity.
Defined.

Lemma removeToast_none id q :
  (forall t, In t q -> Toast.id t <> id) -> removeToast id q = q.
Proof.
  induction q as [| t q IH]; intros H; [reflexivity|]. simpl.
  assert (Ht : Z.eqb (Toast.id t) id = false)
    by (apply Z.eqb_neq; apply H; left; reflexivity).
  rewrite Ht. simpl. f_equal. apply IH. intros u Hu. apply H. right. exact Hu.
Qed.

Lemma removeToast_app id l1 l2 :
  removeToast id (l1 ++ l2) = (removeToast id l1 ++ removeToast id l2)%list.
Proof. unfold removeToast. apply filter_app. Qed.

(** C7. [removeToast id] keeps exactly the toasts whose id is not [id], in
    their order: when one toast carries [id] it is the one removed and the
    others stay in place; when none does the queue is returned unchanged;
    removing twice is the same as removing once. *)
Theorem removeToast_by_id (id : Z) (q : list Toast.t) :
  (forall t, In t (removeToast id q) <-> In t q /\ Toast.id t <> id) /\
  (forall pre t post,
     q = (pre ++ t :: post)%list -> Toast.id t = id ->
     removeToast id q = (removeToast id pre ++ removeToast id post)%list) /\
  (forall pre t post,
     q = (pre ++ t :: post)%list -> Toast.id t = id ->
     (forall u, In u (pre ++ post) -> Toast.id u <> id) ->
     removeToast id q = (pre ++ post)%list) /\
  ((forall t, In t q -> Toast.id t <> id) -> removeToast id q = q) /\
  removeToast id (removeToast id q) = removeToast id q.
Proof.
  assert (Hdrop : forall t post, Toast.id t = id ->
                    removeToast id (t :: post) = removeToast id post).
  { intros t post Ht. simpl. now rewrite Ht, Z.eqb_refl. }
  split; [| split; [| split; [| split]]].
  - intros t. unfold removeToast. rewrite filter_In.
    rewrite negb_true_iff, Z.eqb_neq. tauto.
  - intros pre t post -> Ht. rewrite removeToast_app, Hdrop by exact Ht. reflexivity.
  - intros pre t post -> Ht Hu. rewrite removeToast_app, Hdrop by exact Ht.
    rewrite <- removeToast_app. apply removeToast_none. exact Hu.
  - apply removeToast_none.
  - apply removeToast_none. intros t Ht.
    apply filter_In in Ht. destruct Ht as [_ Ht].
    apply negb_true_iff, Z.eqb_neq in Ht. exact Ht.
Qed.

Lemma removeToast_by_id_witness :
  (forall t, In t (removeToast 2 [sample_toast 1; sample_toast 2; sample_toast 3]) <->
             In t [sample_toast 1; sample_toast 2; sample_toast 3] /\ Toast.id t <> 2%Z) /\
  removeToast 2 [sample_toast 1; sample_toast 2; sample_toast 3] =
    [sample_toast 1; sample_toast 3] /\
  removeToast 4 [sample_toast 1; sample_toast 2; sample_toast 3] =
    [sample_toast 1; sample_toast 2; sample_toast 3].
Proof.
  destruct (removeToast_by_id 2 [sample_toast 1; sample_toast 2; sample_toast 3])
    as (Hin & _ & Hone & _ & _).
  destruct (removeToast_by_id 4 [sample_toast 1; sample_toast 2; sample_toast 3])
    as (_ & _ & _ & Hnone & _).
  split; [exact Hin|]. split.
  - apply (Hone [sample_toast 1] (sample_toast 2) [sample_toast 3]); [reflexivity | reflexivity |].
    intros u [<- | [<- | []]]; simpl; discriminate.
  - apply Hnone. intros t [<- | [<- | [<- | []]]]; simpl; discriminate.
Defined.

(** C4. The id of a toast is the clock reading [Date.now()]: the two toasts
    added by one tick read the same millisecond and get the same id, and
    removing that id removes both. *)
Theorem toast_ids_collide :
  map Toast.id (toasts (app_step (fun _ => 1700000000000%Z) five_tick_start
                          (DataLoaded two_alert_tick))) =
    [1700000000000%Z; 1700000000000%Z] /\
  removeToast 1700000000000
    (toasts (app_step (fun _ => 1700000000000%Z) five_tick_start
               (DataLoaded two_alert_tick))) = [].
Proof. vm_compute. split; reflexivity. Qed.

(** ** Lemmas on the refresh cycle *)

Lemma pending_find_fresh p c x :
  Forall (fun e => (fst e < c)%nat) p -> pending_find (p ++ [(c, x)]) c = Some x.
Proof.
  induction 1 as [| [c' y] p Hc _ IH]; simpl.
  - now rewrite Nat.eqb_refl.
  - simpl in Hc. replace (Nat.eqb c c') with false by (symmetry; apply Nat.eqb_neq; lia).
    exact IH.
Qed.

Lemma pending_remove_fresh p c x :
  Forall (fun e => (fst e < c)%nat) p -> pending_remove (p ++ [(c, x)]) c = p.
Proof.
  unfold pending_remove. intros H. rewrite filter_app. simpl.
  rewrite Nat.eqb_refl. simpl. rewrite app_nil_r.
  induction H as [| [c' y] p Hc _ IH]; simpl; [reflexivity|].
  simpl in Hc. replace (Nat.eqb c' c) with false by (symmetry; apply Nat.eqb_neq; lia).
  simpl. now rewrite IH.
Qed.

Lemma promise_all_none (fetch : string -> FetchResult) syms s :
  In s syms -> fetch s = None -> promise_all (map fetch syms) = None.
Proof.
  induction syms as [| s' syms IH]; simpl; [contradiction|].
  intros [<- | Hin] Hf.
  - now rewrite Hf.
  - rewrite (IH Hin Hf). destruct (fetch s'); reflexivity.
Qed.

Lemma agg_inv_step st ev : agg_inv st -> agg_inv (agg_step st ev).
Proof.
  unfold agg_inv. intros H. destruct ev as [syms tf | c results]; simpl.
  - destruct syms; simpl; [exact H|].
    apply Forall_app. split.
    + eapply Forall_impl; [| exact H]. simpl. intros. lia.
    + constructor; [simpl; lia | constructor].
  - destruct (pending_find (pending st) c); [|exact H].
    assert (Hr : Forall (fun e => (fst e < cycles st)%nat) (pending_remove (pending st) c)).
    { unfold pending_remove. apply Forall_forall. intros e He.
      apply filter_In in He. rewrite Forall_forall in H. apply H. tauto. }
    destruct (promise_all results); exact Hr.
Qed.

Lemma agg_inv_run evs : agg_inv (run_agg agg_init evs).
Proof.
  assert (H : forall st, agg_inv st -> agg_inv (run_agg st evs)).
  { induction evs as [| ev evs IH]; intros st Hst; simpl; [exact Hst|].
    apply IH. apply agg_inv_step. exact Hst. }
  apply H. constructor.
Qed.

(** C1 (as amended). A refresh over a non-empty symbol list clears the
    loading flag and replaces the snapshot as a whole: by the new data of
    every symbol when all fetches resolve, and not at all when one rejects,
    in which case every previous entry is kept and none of the other
    symbols' new data is applied. *)
Theorem refresh_all_or_nothing st syms tf fetch :
  agg_inv st ->
  syms <> [] ->
  loading (refresh st syms tf fetch) = false /\
  pending (refresh st syms tf fetch) = pending st /\
  snapshot (refresh st syms tf fetch) =
    match promise_all (map fetch syms) with
    | Some ds => build_newData syms ds
    | None => snapshot st
    end /\
  ((exists s, In s syms /\ fetch s = None) ->
   snapshot (refresh st syms tf fetch) = snapshot st).
Proof.
  intros Hinv Hne. destruct syms as [| s0 syms]; [contradiction|].
  unfold refresh. cbn [agg_step snapshot loading pending requests cycles].
  rewrite pending_find_fresh by exact Hinv.
  assert (Hp : pending_remove (pending st ++ [(cycles st, s0 :: syms)]) (cycles st)
               = pending st) by (apply pending_remove_fresh; exact Hinv).
  destruct (promise_all (map fetch (s0 :: syms))) as [ds|] eqn:Hall; simpl.
  - split; [reflexivity|]. split; [exact Hp|]. split; [reflexivity|].
    intros (s & Hin & Hf).
    rewrite (promise_all_none fetch (s0 :: syms) s Hin Hf) in Hall. discriminate.
  - auto.
Qed.

Lemma refresh_all_or_nothing_witness :
  (agg_inv agg_loaded /\ tracked <> []) /\
  loading (refresh agg_loaded tracked "15m" eth_fails) = false /\
  pending (refresh agg_loaded tracked "15m" eth_fails) = pending agg_loaded /\
  snapshot (refresh agg_loaded tracked "15m" eth_fails) =
    match promise_all (map eth_fails tracked) with
    | Some ds => build_newData tracked ds
    | None => snapshot agg_loaded
    end /\
  ((exists s, In s tracked /\ eth_fails s = None) ->
   snapshot (refresh agg_loaded tracked "15m" eth_fails) = snapshot agg_loaded).
Proof.
  assert (H1 : agg_inv agg_loaded) by apply agg_inv_run.
  assert (H2 : tracked <> []) by discriminate.
  split; [split; assumption|].
  exact (refresh_all_or_nothing agg_loaded tracked "15m" eth_fails H1 H2).
Defined.

(** C1 fails as stated: ETHUSDT's fetch rejects and BTCUSDT's new data is
    not in the snapshot, which still holds BTCUSDT's previous data. *)
Lemma refresh_all_or_nothing_counterexample :
  obj_get (snapshot (refresh agg_loaded tracked "15m" eth_fails)) "BTCUSDT" <> Some btc_new /\
  obj_get (snapshot (refresh agg_loaded tracked "15m" eth_fails)) "BTCUSDT" = Some btc_old.
Proof. vm_compute. split; [discriminate | reflexivity]. Qed.

(** C10. Refreshing with no tracked symbols issues no fetch and sets the
    snapshot to the empty object, dropping every previous entry, and clears
    the loading flag. *)
Theorem refresh_empty_symbols st tf fetch :
  refresh st [] tf fetch = mkAggregator [] false (requests st) (pending st) (cycles st) /\
  (forall s, obj_get (snapshot (refresh st [] tf fetch)) s = None).
Proof. split; reflexivity. Qed.

(** C6 (as amended). Cycles are not serialized: starting one while others
    are pending issues its fetches and adds it as another pending cycle,
    without touching the snapshot; a pending cycle that settles replaces the
    snapshot in one assignment, by its own symbols' complete data when all
    its fetches resolved and not at all when one rejected, and clears the
    loading flag; a cycle that is not pending changes nothing. *)
Theorem refresh_cycles_not_serialized :
  (forall st syms tf,
     syms <> [] ->
     snapshot (agg_step st (CycleStarted syms tf)) = snapshot st /\
     pending (agg_step st (CycleStarted syms tf)) = (pending st ++ [(cycles st, syms)])%list /\
     requests (agg_step st (CycleStarted syms tf)) =
       (requests st ++ map (fun s => (s, tf)) syms)%list) /\
  (forall st c results syms,
     pending_find (pending st) c = Some syms ->
     snapshot (agg_step st (CycleSettled c results)) =
       match promise_all results with
       | Some ds => build_newData syms ds
       | None => snapshot st
       end /\
     pending (agg_step st (CycleSettled c results)) = pending_remove (pending st) c /\
     loading (agg_step st (CycleSettled c results)) = false) /\
  (forall st c results,
     pending_find (pending st) c = None -> agg_step st (CycleSettled c results) = st).
Proof.
  split; [| split].
  - intros st [| s syms] tf Hne; [contradiction|]. simpl. auto.
  - intros st c results syms Hf. simpl. rewrite Hf.
    destruct (promise_all results); simpl; auto.
  - intros st c results Hf. simpl. now rewrite Hf.
Qed.

Lemma refresh_cycles_not_serialized_witness :
  (tracked <> [] /\ pending_find (pending agg_loaded) 0 = None) /\
  snapshot (agg_step agg_loaded (CycleStarted tracked "1h")) = snapshot agg_loaded /\
  agg_step agg_loaded (CycleSettled 0 [None]) = agg_loaded.
Proof.
  assert (H1 : tracked <> []) by discriminate.
  assert (H2 : pending_find (pending agg_loaded) 0 = None) by reflexivity.
  split; [split; assumption|].
  destruct refresh_cycles_not_serialized as (Hs & _ & Hn).
  split; [exact (proj1 (Hs agg_loaded tracked "1h" H1)) | exact (Hn agg_loaded 0%nat [None] H2)].
Defined.

(** C6 fails as stated: a second cycle started while the first is pending
    is not a no-op (two cycles are then in flight), and when the older cycle
    settles last its data overwrites the newer cycle's. *)
Lemma refresh_cycles_not_serialized_counterexample :
  agg_step (agg_step agg_init (CycleStarted ["BTCUSDT"] "15m")) (CycleStarted ["BTCUSDT"] "15m")
    <> agg_step agg_init (CycleStarted ["BTCUSDT"] "15m") /\
  length (pending (run_agg agg_init [CycleStarted ["BTCUSDT"] "15m";
                                     CycleStarted ["BTCUSDT"] "15m"])) = 2%nat /\
  snapshot (run_agg agg_init [CycleStarted ["BTCUSDT"] "15m";
                              CycleStarted ["BTCUSDT"] "15m";
                              CycleSettled 1 [Some btc_new];
                              CycleSettled 0 [Some btc_old]]) = [("BTCUSDT", btc_old)].
Proof.
  split; [| split; vm_compute; reflexivity].
  intros H. apply (f_equal (fun st => length (pending st))) in H.
  vm_compute in H. discriminate.
Qed.

(** C8. Each persisted setting whose stored text is absent or does not
    parse as JSON loads as its default, whatever the parser and the default
    symbol list: all symbols as [DEFAULT_SYMBOLS], the user's symbols as the
    all-symbols value just loaded, favorites as [[]], alerts as [false]. *)
Theorem config_defaults_on_malformed JSON_parse DEFAULT_SYMBOLS getItem :
  (malformed_or_absent JSON_parse (getItem "crypto-all-symbols") ->
   cfg_allSymbols (init_config JSON_parse DEFAULT_SYMBOLS getItem) =
     json_of_symbols DEFAULT_SYMBOLS) /\
  (malformed_or_absent JSON_parse (getItem "crypto-user-symbols") ->
   cfg_userSymbols (init_config JSON_parse DEFAULT_SYMBOLS getItem) =
     cfg_allSymbols (init_config JSON_parse DEFAULT_SYMBOLS getItem)) /\
  (malformed_or_absent JSON_parse (getItem "crypto-favorites") ->
   cfg_favorites (init_config JSON_parse DEFAULT_SYMBOLS getItem) = JArr []) /\
  (malformed_or_absent JSON_parse (getItem "crypto-alerts-enabled") ->
   cfg_areAlertsEnabled (init_config JSON_parse DEFAULT_SYMBOLS getItem) = JBool false).
Proof.
  unfold init_config. simpl.
  repeat split; intros H; apply load_saved_default; exact H.
Qed.

Lemma config_defaults_on_malformed_witness :
  (malformed_or_absent toy_JSON_parse (corrupted_storage "crypto-all-symbols") /\
   malformed_or_absent toy_JSON_parse (corrupted_storage "crypto-user-symbols") /\
   malformed_or_absent toy_JSON_parse (corrupted_storage "crypto-favorites") /\
   malformed_or_absent toy_JSON_parse (corrupted_storage "crypto-alerts-enabled")) /\
  cfg_allSymbols (init_config toy_JSON_parse tracked corrupted_storage) =
    json_of_symbols tracked /\
  cfg_userSymbols (init_config toy_JSON_parse tracked corrupted_storage) =
    cfg_allSymbols (init_config toy_JSON_parse tracked corrupted_storage) /\
  cfg_favorites (init_config toy_JSON_parse tracked corrupted_storage) = JArr [] /\
  cfg_areAlertsEnabled (init_config toy_JSON_parse tracked corrupted_storage) = JBool false.
Proof.
  assert (Hm : forall key, malformed_or_absent toy_JSON_parse (corrupted_storage key))
    by (intros key; right; exists "[1,"; split; reflexivity).
  destruct (config_defaults_on_malformed toy_JSON_parse tracked corrupted_storage)
    as (H1 & H2 & H3 & H4).
  split; [repeat split; apply Hm|].
  split; [apply H1, Hm|]. split; [apply H2, Hm|]. split; [apply H3, Hm | apply H4, Hm].
Defined.


(** ** Further properties of the refresh cycle *)

Lemma obj_keys_set_new {A} (o : Obj A) k v :
  ~ In k (obj_keys o) -> obj_keys (obj_set o k v) = (obj_keys o ++ [k])%list.
Proof.
  induction o as [| [k' v'] o IH]; simpl; intros H; [reflexivity|].
  destruct (String.eqb k k') eqn:E.
  - apply String.eqb_eq in E. subst k'. exfalso. auto.
  - simpl. rewrite IH; auto.
Qed.

Lemma set_all_get_notin syms ds acc s :
  ~ In s syms -> obj_get (set_all (combine syms ds) acc) s = obj_get acc s.
Proof.
  revert ds acc. induction syms as [| k syms IH]; intros [| d ds] acc H; try reflexivity.
  simpl. unfold set_all in IH. rewrite IH by (simpl in H; tauto).
  rewrite obj_get_set. destruct (String.eqb s k) eqn:E; [|reflexivity].
  apply String.eqb_eq in E. subst k. exfalso. apply H. left. reflexivity.
Qed.

Lemma set_all_get syms ds acc i s :
  NoDup syms -> length ds = length syms -> nth_error syms i = Some s ->
  obj_get (set_all (combine syms ds) acc) s = nth_error ds i.
Proof.
  revert ds acc i. induction syms as [| k syms IH]; intros [| d ds] acc i Hnd Hl Hi;
    try (destruct i; discriminate); try discriminate.
  inversion Hnd as [| ? ? Hk Hnd']; subst. simpl in Hl.
  destruct i as [| i]; simpl in Hi |- *.
  - injection Hi as <-. unfold set_all. simpl.
    rewrite (set_all_get_notin syms ds _ k Hk), obj_get_set, String.eqb_refl.
    reflexivity.
  - unfold set_all in *. simpl. apply IH; auto.
Qed.

Lemma set_all_keys syms ds acc :
  NoDup syms -> length ds = length syms ->
  (forall k, In k syms -> ~ In k (obj_keys acc)) ->
  obj_keys (set_all (combine syms ds) acc) = (obj_keys acc ++ syms)%list.
Proof.
  revert ds acc. induction syms as [| k syms IH]; intros [| d ds] acc Hnd Hl Hfresh;
    try discriminate.
  - simpl. now rewrite app_nil_r.
  - inversion Hnd as [| ? ? Hk Hnd']; subst. simpl in Hl.
    unfold set_all in *. simpl. rewrite IH; auto.
    + rewrite obj_keys_set_new by (apply Hfresh; left; reflexivity).
      now rewrite <- app_assoc.
    + intros k' Hin. rewrite obj_keys_set_new by (apply Hfresh; left; reflexivity).
      rewrite in_app_iff. intros [H | [<- | []]]; [| contradiction].
      exact (Hfresh k' (or_intror Hin) H).
Qed.

Lemma NoDup_tracked : NoDup tracked.
Proof.
  constructor; [simpl; intros [H | []]; discriminate | constructor; [intros [] | constructor]].
Qed.

(** X1. [build_newData] over distinct symbols and one result per symbol
    builds an object whose keys are the symbols in order and which maps the
    i-th symbol to the i-th result. *)
Theorem build_newData_lookup syms ds :
  NoDup syms -> length ds = length syms ->
  obj_keys (build_newData syms ds) = syms /\
  (forall i s, nth_error syms i = Some s -> obj_get (build_newData syms ds) s = nth_error ds i).
Proof.
  intros Hnd Hl. split.
  - exact (set_all_keys syms ds [] Hnd Hl (fun _ _ H => H)).
  - intros i s Hi. exact (set_all_get syms ds [] i s Hnd Hl Hi).
Qed.

Lemma build_newData_lookup_witness :
  (NoDup tracked /\ length [btc_new; eth_old] = length tracked) /\
  obj_keys (build_newData tracked [btc_new; eth_old]) = tracked /\
  (forall i s, nth_error tracked i = Some s ->
   obj_get (build_newData tracked [btc_new; eth_old]) s = nth_error [btc_new; eth_old] i).
Proof.
  assert (H1 : NoDup tracked) by exact NoDup_tracked.
  assert (H2 : length [btc_new; eth_old] = length tracked) by reflexivity.
  split; [split; assumption|].
  exact (build_newData_lookup tracked [btc_new; eth_old] H1 H2).
Defined.

Lemma promise_all_some (rs : list FetchResult) ds :
  promise_all rs = Some ds <-> rs = map Some ds.
Proof.
  revert ds. induction rs as [| [d|] rs IH]; intros ds; simpl.
  - split; [intros [= <-]; reflexivity | destruct ds; [reflexivity | discriminate]].
  - destruct (promise_all rs) as [ds'|] eqn:E.
    + split.
      * intros [= <-]. simpl. f_equal. apply IH. reflexivity.
      * destruct ds as [| d' ds]; [discriminate|]. simpl. intros [= -> Hr].
        apply IH in Hr. congruence.
    + split; [discriminate|].
      destruct ds as [| d' ds]; [discriminate|]. simpl. intros [= -> Hr].
      apply IH in Hr. congruence.
  - split; [discriminate|]. destruct ds; discriminate.
Qed.

Lemma promise_all_resolves (fetch : string -> FetchResult) syms :
  (forall s, In s syms -> fetch s <> None) ->
  exists ds, promise_all (map fetch syms) = Some ds.
Proof.
  induction syms as [| s syms IH]; intros Hok; simpl; [eauto|].
  destruct (fetch s) as [d|] eqn:Ef; [| exfalso; exact (Hok s (or_introl eq_refl) Ef)].
  destruct IH as [ds Hds]; [intros s' Hs'; apply Hok; right; exact Hs'|].
  rewrite Hds. eauto.
Qed.

(** The snapshot after a refresh that issued fetches, when no other cycle
    shares its number. *)
Lemma refresh_snapshot st syms tf fetch :
  agg_inv st -> syms <> [] ->
  snapshot (refresh st syms tf fetch) =
    match promise_all (map fetch syms) with
    | Some ds => build_newData syms ds
    | None => snapshot st
    end.
Proof.
  intros Hinv Hne. destruct syms as [| s0 syms]; [contradiction|].
  unfold refresh. cbn [agg_step snapshot loading pending requests cycles].
  rewrite pending_find_fresh by exact Hinv.
  destruct (promise_all (map fetch (s0 :: syms))); reflexivity.
Qed.

(** X2. A refresh over distinct symbols whose fetches all resolve leaves a
    snapshot whose keys are exactly those symbols, in order, each mapped to
    the data its own fetch returned. *)
Theorem refresh_success_snapshot st syms tf fetch :
  agg_inv st -> NoDup syms -> syms <> [] ->
  (forall s, In s syms -> fetch s <> None) ->
  obj_keys (snapshot (refresh st syms tf fetch)) = syms /\
  (forall s, In s syms -> obj_get (snapshot (refresh st syms tf fetch)) s = fetch s).
Proof.
  intros Hinv Hnd Hne Hok.
  destruct (promise_all_resolves fetch syms Hok) as [ds Hall].
  rewrite (refresh_snapshot st syms tf fetch Hinv Hne), Hall.
  apply promise_all_some in Hall.
  assert (Hl : length ds = length syms)
    by (rewrite <- (length_map Some ds), <- Hall; apply length_map).
  destruct (build_newData_lookup syms ds Hnd Hl) as [Hk Hg].
  split; [exact Hk|].
  intros s Hin. apply In_nth_error in Hin. destruct Hin as [i Hi].
  rewrite (Hg i s Hi).
  assert (Hm : nth_error (map fetch syms) i = Some (fetch s))
    by (rewrite nth_error_map, Hi; reflexivity).
  unfold FetchResult in *. rewrite Hall, nth_error_map in Hm.
  destruct (nth_error ds i); simpl in Hm; congruence.
Qed.

Lemma refresh_success_snapshot_witness :
  (agg_inv agg_loaded /\ NoDup tracked /\ tracked <> [] /\
   (forall s, In s tracked -> all_resolve s <> None)) /\
  obj_keys (snapshot (refresh agg_loaded tracked "1h" all_resolve)) = tracked /\
  (forall s, In s tracked ->
   obj_get (snapshot (refresh agg_loaded tracked "1h" all_resolve)) s = all_resolve s).
Proof.
  assert (H1 : agg_inv agg_loaded) by apply agg_inv_run.
  assert (H2 : NoDup tracked) by exact NoDup_tracked.
  assert (H3 : tracked <> []) by discriminate.
  assert (H4 : forall s, In s tracked -> all_resolve s <> None).
  { intros s _. unfold all_resolve. destruct (String.eqb s "BTCUSDT"); discriminate. }
  split; [repeat split; assumption|].
  exact (refresh_success_snapshot agg_loaded tracked "1h" all_resolve H1 H2 H3 H4).
Defined.

(** X3. In any run from mount, the loading flag is on only while some
    cycle's [Promise.all] is still pending, or before any event. *)
Theorem loading_only_while_pending evs :
  loading (run_agg agg_init evs) = true ->
  pending (run_agg agg_init evs) <> [] \/ run_agg agg_init evs = agg_init.
Proof.
  assert (Hstep : forall st ev,
    (loading st = true -> pending st <> [] \/ st = agg_init) ->
    loading (agg_step st ev) = true ->
    pending (agg_step st ev) <> [] \/ agg_step st ev = agg_init).
  { intros st [syms tf | c results] H; simpl.
    - destruct syms as [| s syms]; simpl; [discriminate|].
      intros _. left. intros E. apply app_eq_nil in E. destruct E as [_ E]. discriminate.
    - destruct (pending_find (pending st) c); [| exact H].
      destruct (promise_all results); simpl; discriminate. }
  assert (Hrun : forall evs st,
    (loading st = true -> pending st <> [] \/ st = agg_init) ->
    loading (run_agg st evs) = true ->
    pending (run_agg st evs) <> [] \/ run_agg st evs = agg_init).
  { induction evs0 as [| ev evs0 IH]; intros st H; simpl; [exact H|].
    apply IH. apply Hstep. exact H. }
  apply Hrun. intros _. right. reflexivity.
Qed.

Lemma loading_only_while_pending_witness :
  loading (run_agg agg_init [CycleStarted tracked "1h"]) = true /\
  (pending (run_agg agg_init [CycleStarted tracked "1h"]) <> [] \/
   run_agg agg_init [CycleStarted tracked "1h"] = agg_init).
Proof.
  assert (H : loading (run_agg agg_init [CycleStarted tracked "1h"]) = true) by reflexivity.
  split; [exact H|].
  exact (loading_only_while_pending [CycleStarted tracked "1h"] H).
Defined.

(** ** Further properties of the toast queue *)

Lemma classify_toast_ok s tf v id :
  classify v <> neutral ->
  toast_ok (Toast.mk s tf v (toast_type_of (classify v)) id) = true.
Proof.
  unfold classify, toast_ok. simpl.
  destruct (Qle_bool overboughtThreshold v) eqn:Ho; [reflexivity|].
  destruct (Qle_bool v oversoldThreshold) eqn:Hs; [reflexivity|].
  intros H. exfalso. apply H. reflexivity.
Qed.

Lemma should_notify_extreme p c : should_notify p c = true -> c <> neutral.
Proof.
  unfold should_notify. destruct c; simpl; rewrite ?andb_false_r; try discriminate; auto.
Qed.

Lemma alert_fold_added tf clk d last ks m a :
  exists added,
    snd (fold_left (alert_symbol tf clk d last) ks (m, a)) = (a ++ added)%list /\
    Forall (fun t => latest_rsi d (Toast.symbol t) = Some (Toast.rsi t) /\
                     Toast.timeframe t = tf /\ toast_ok t = true) added.
Proof.
  revert m a. induction ks as [| k ks IH]; intros m a; cbn [fold_left].
  - exists []. rewrite app_nil_r. split; [reflexivity | constructor].
  - rewrite alert_symbol_eq.
    destruct (latest_rsi d k) as [v|] eqn:Ek; [| apply IH].
    destruct (should_notify (previous_status last k) (classify v)) eqn:Hn; [| apply IH].
    destruct (IH (obj_set m k (classify v)) (addToast clk a k tf v (toast_type_of (classify v))))
      as (added & Ha & Hf).
    unfold addToast in Ha. rewrite <- app_assoc in Ha.
    eexists. split; [exact Ha|]. constructor; [| exact Hf].
    simpl. split; [exact Ek|]. split; [reflexivity|].
    apply classify_toast_ok. exact (should_notify_extreme _ _ Hn).
Qed.

Lemma commit_added clk st :
  exists added, toasts (commit clk st) = (toasts st ++ added)%list /\
    Forall (toast_fits (commit clk st)) added.
Proof.
  destruct (alert_gate (areAlertsEnabled st) (timeframe st) (symbolsData st)) eqn:G.
  - rewrite commit_open by exact G. simpl.
    unfold alert_fold.
    destruct (alert_fold_added (timeframe st) clk (symbolsData st) (lastAlertedRsiStatus st)
                (obj_keys (symbolsData st)) (lastAlertedRsiStatus st) []) as (added & Ha & Hf).
    rewrite Ha. exists added. split; [reflexivity|].
    unfold alert_gate in G. apply andb_prop in G. destruct G as [G _].
    apply andb_prop in G. destruct G as [_ Gt].
    revert Hf. apply Forall_impl. intros t (H1 & H2 & H3).
    unfold toast_fits. simpl. rewrite H2. auto.
  - rewrite commit_closed by exact G. exists []. rewrite app_nil_r.
    split; [reflexivity | constructor].
Qed.

(** X4. Every event other than the removal of a toast only appends to the
    toast queue, and each toast it appends carries the latest RSI of its
    symbol in the new state, the current timeframe (one on the alert
    allow-list) and a kind that agrees with its value. *)
Theorem app_step_appends_fitting_toasts clk st ev :
  (forall id, ev <> ToastRemoved id) ->
  exists added, toasts (app_step clk st ev) = (toasts st ++ added)%list /\
    Forall (toast_fits (app_step clk st ev)) added.
Proof.
  intros Hev. destruct ev as [d | | tf | id]; simpl.
  - exact (commit_added clk _).
  - exact (commit_added clk _).
  - destruct (String.eqb tf (timeframe st)); [| exact (commit_added clk _)].
    exists []. rewrite app_nil_r. split; [reflexivity | constructor].
  - exfalso. exact (Hev id eq_refl).
Qed.

Lemma app_step_appends_fitting_toasts_witness :
  (forall id, DataLoaded (tick_of 80) <> ToastRemoved id) /\
  exists added,
    toasts (app_step (clock_from 0) five_tick_start (DataLoaded (tick_of 80))) =
      (toasts five_tick_start ++ added)%list /\
    Forall (toast_fits (app_step (clock_from 0) five_tick_start (DataLoaded (tick_of 80))))
      added.
Proof.
  assert (H : forall id, DataLoaded (tick_of 80) <> ToastRemoved id) by discriminate.
  split; [exact H|].
  exact (app_step_appends_fitting_toasts (clock_from 0) five_tick_start _ H).
Defined.

(** X5. Along any run of events, a queue whose toasts all have an
    allow-listed timeframe and a kind that agrees with their value keeps
    that property: the component never shows an alert on another
    timeframe, nor an overbought alert below 70 or an oversold one above 30. *)
Theorem run_app_toasts_sound st evs :
  Forall (fun t => includes ALLOWED_TIMEFRAMES_FOR_ALERTS (Toast.timeframe t) = true /\
                   toast_ok t = true) (toasts st) ->
  Forall (fun t => includes ALLOWED_TIMEFRAMES_FOR_ALERTS (Toast.timeframe t) = true /\
                   toast_ok t = true) (toasts (run_app st evs)).
Proof.
  revert st. induction evs as [| [ev clk] evs IH]; intros st H; simpl; [exact H|].
  apply IH.
  assert (Hc : forall st', Forall (fun t => includes ALLOWED_TIMEFRAMES_FOR_ALERTS
                 (Toast.timeframe t) = true /\ toast_ok t = true) (toasts st') ->
               Forall (fun t => includes ALLOWED_TIMEFRAMES_FOR_ALERTS
                 (Toast.timeframe t) = true /\ toast_ok t = true) (toasts (commit clk st'))).
  { intros st' H'. destruct (commit_added clk st') as (added & Ha & Hf). rewrite Ha.
    apply Forall_app. split; [exact H'|].
    revert Hf. apply Forall_impl. intros t (_ & _ & H3 & H4). auto. }
  destruct ev as [d | | tf | id]; simpl.
  - apply Hc. exact H.
  - apply Hc. exact H.
  - destruct (String.eqb tf (timeframe st)); [exact H|]. apply Hc. exact H.
  - apply Forall_forall. intros t Ht. rewrite Forall_forall in H.
    exact (H t (removeToast_incl _ _ _ Ht)).
Qed.

Lemma run_app_toasts_sound_witness :
  Forall (fun t => includes ALLOWED_TIMEFRAMES_FOR_ALERTS (Toast.timeframe t) = true /\
                   toast_ok t = true) (toasts five_tick_start) /\
  Forall (fun t => includes ALLOWED_TIMEFRAMES_FOR_ALERTS (Toast.timeframe t) = true /\
                   toast_ok t = true) (toasts (run_app five_tick_start five_ticks)).
Proof.
  assert (H : Forall (fun t => includes ALLOWED_TIMEFRAMES_FOR_ALERTS (Toast.timeframe t) = true /\
                   toast_ok t = true) (toasts five_tick_start)) by (vm_compute; constructor).
  split; [exact H|].
  exact (run_app_toasts_sound five_tick_start five_ticks H).
Defined.

(** ** Favorites and reset *)

Lemma includes_In l x : includes l x = true <-> In x l.
Proof.
  unfold includes. rewrite existsb_exists. split.
  - intros (y & Hy & E). apply String.eqb_eq in E. subst y. exact Hy.
  - intros H. exists x. split; [exact H | apply String.eqb_refl].
Qed.

Lemma filter_neq_In s x l :
  In s (filter (fun s' => negb (String.eqb s' x)) l) <-> s <> x /\ In s l.
Proof.
  rewrite filter_In, negb_true_iff, String.eqb_neq. tauto.
Qed.

Lemma filter_neq_notin x l :
  ~ In x l -> filter (fun s => negb (String.eqb s x)) l = l.
Proof.
  induction l as [| y l IH]; simpl; intros H; [reflexivity|].
  destruct (String.eqb y x) eqn:E.
  - apply String.eqb_eq in E. subst y. exfalso. auto.
  - simpl. f_equal. apply IH. auto.
Qed.

Lemma NoDup_filter_str (f : string -> bool) l : NoDup l -> NoDup (filter f l).
Proof.
  induction 1 as [| y l Hy Hnd IH]; simpl; [constructor|].
  destruct (f y); [| exact IH]. constructor; [| exact IH].
  intros H. apply filter_In in H. tauto.
Qed.

(** X6. [toggleFavorite] removes the symbol when it is a favorite and adds it
    otherwise, leaving every other favorite; it never creates a duplicate;
    and on a duplicate-free list, toggling the same symbol twice gives the
    same favorites (possibly in another order). *)
Theorem toggleFavorite_flips symbol prev :
  (forall s, In s (toggleFavorite symbol prev) <->
             (s = symbol /\ ~ In symbol prev) \/ (s <> symbol /\ In s prev)) /\
  (NoDup prev -> NoDup (toggleFavorite symbol prev)) /\
  (NoDup prev -> Permutation (toggleFavorite symbol (toggleFavorite symbol prev)) prev).
Proof.
  unfold toggleFavorite.
  destruct (includes prev symbol) eqn:Hi.
  - apply includes_In in Hi. split; [| split].
    + intros s. rewrite filter_neq_In. tauto.
    + apply NoDup_filter_str.
    + intros Hnd.
      assert (Hno : includes (filter (fun s => negb (String.eqb s symbol)) prev) symbol = false).
      { apply not_true_iff_false. rewrite includes_In, filter_neq_In. tauto. }
      rewrite Hno.
      apply in_split in Hi. destruct Hi as (l1 & l2 & ->).
      apply NoDup_remove_2 in Hnd. rewrite in_app_iff in Hnd.
      rewrite filter_app. cbn [filter]. rewrite String.eqb_refl. simpl.
      rewrite !filter_neq_notin by tauto.
      rewrite <- app_assoc. apply Permutation_app_head. simpl.
      apply Permutation_sym, Permutation_cons_append.
  - assert (Hn : ~ In symbol prev) by (rewrite <- includes_In; congruence).
    split; [| split].
    + intros s. rewrite in_app_iff. simpl.
      destruct (string_dec s symbol) as [-> | Ne]; [tauto|]. intuition congruence.
    + intros Hnd. apply NoDup_app; [exact Hnd | repeat constructor; intros [] |].
      intros x Hx [<- | []]. contradiction.
    + intros _.
      assert (Hin : includes (prev ++ [symbol]) symbol = true)
        by (apply includes_In, in_or_app; right; left; reflexivity).
      rewrite Hin, filter_app, filter_neq_notin by exact Hn. simpl.
      rewrite String.eqb_refl. simpl. rewrite app_nil_r. reflexivity.
Qed.

(** X7. Toggling a symbol that is not a favorite and toggling it again gives
    back exactly the favorites list it started from. *)
Theorem toggleFavorite_twice_absent symbol prev :
  ~ In symbol prev -> toggleFavorite symbol (toggleFavorite symbol prev) = prev.
Proof.
  intros Hn. unfold toggleFavorite.
  assert (Ho : includes prev symbol = false)
    by (apply not_true_iff_false; rewrite includes_In; exact Hn).
  rewrite Ho.
  assert (Hin : includes (prev ++ [symbol]) symbol = true)
    by (apply includes_In, in_or_app; right; left; reflexivity).
  rewrite Hin, filter_app, filter_neq_notin by exact Hn. simpl.
  rewrite String.eqb_refl. simpl. apply app_nil_r.
Qed.

Lemma toggleFavorite_twice_absent_witness :
  ~ In "SOLUSDT" tracked /\
  toggleFavorite "SOLUSDT" (toggleFavorite "SOLUSDT" tracked) = tracked.
Proof.
  assert (H : ~ In "SOLUSDT" tracked) by (simpl; intros [H | [H | []]]; discriminate).
  split; [exact H|].
  exact (toggleFavorite_twice_absent "SOLUSDT" tracked H).
Defined.

(** X8. The settings [handleResetSettings] sets are the ones the
    [useState] initializers load from the storage it has just cleared,
    whatever else that storage holds: a reload right after a reset starts
    from the same settings. *)
Theorem reset_matches_fresh_load JSON_parse DEFAULT_SYMBOLS getItem :
  init_config JSON_parse DEFAULT_SYMBOLS (reset_storage getItem) =
  reset_config DEFAULT_SYMBOLS.
Proof. reflexivity. Qed.

(** X9. Once a refresh has delivered some data and the alert effect has run
    on it, delivering the same data again changes nothing: no new toast, no
    status change. *)
Theorem same_data_no_new_alert clk clk' st d :
  app_step clk' (app_step clk st (DataLoaded d)) (DataLoaded d) =
  app_step clk st (DataLoaded d).
Proof.
  rewrite !app_step_data_loaded.
  set (st0 := mkAlertApp (areAlertsEnabled st) (timeframe st) d
                (lastAlertedRsiStatus st) (toasts st)).
  destruct (commit_fields clk st0) as (He & Ht & Hd).
  destruct (alert_gate (areAlertsEnabled st0) (timeframe st0) (symbolsData st0)) eqn:G.
  - rewrite (commit_open clk st0 G) in He, Ht, Hd |- *. simpl in He, Ht, Hd |- *.
    subst st0. simpl in *.
    set (m := fst (alert_fold (timeframe st) clk d (lastAlertedRsiStatus st))).
    set (a := snd (alert_fold (timeframe st) clk d (lastAlertedRsiStatus st))).
    assert (Hf : alert_fold (timeframe st) clk' d m = (m, [])).
    { unfold alert_fold. apply alert_fold_fixed.
      intros k v Hin Hk. subst m. unfold alert_fold.
      rewrite alert_fold_status, Hk, existsb_eqb_In by exact Hin. reflexivity. }
    rewrite commit_open by exact G. simpl. rewrite Hf. simpl.
    rewrite app_nil_r. reflexivity.
  - rewrite (commit_closed clk st0 G). subst st0. simpl.
    rewrite commit_closed by exact G. reflexivity.
Qed.

(** ** The displayed symbol list *)

Lemma sort_insert_perm cmp x l : Permutation (sort_insert cmp x l) (x :: l).
Proof.
  induction l as [| y l IH]; simpl; [reflexivity|].
  destruct (Qle_bool (cmp y x) 0); [| reflexivity].
  rewrite IH. apply perm_swap.
Qed.

Lemma js_sort_perm cmp l : Permutation (js_sort cmp l) l.
Proof.
  unfold js_sort. rewrite <- (app_nil_r l) at 2. generalize (@nil string) as acc.
  induction l as [| x l IH]; intros acc; simpl; [reflexivity|].
  rewrite IH, sort_insert_perm. apply Permutation_sym, Permutation_middle.
Qed.

Section InsertionSort.

Variable cmp : string -> string -> Q.
Hypothesis cmp_antisym : forall a b, cmp a b == - cmp b a.

Lemma sort_insert_hd y x l :
  cmp_le cmp y x -> HdRel (cmp_le cmp) y l -> HdRel (cmp_le cmp) y (sort_insert cmp x l).
Proof.
  intros Hyx Hl. destruct l as [| z l]; simpl; [constructor; exact Hyx|].
  destruct (Qle_bool (cmp z x) 0); constructor; [inversion Hl; assumption | exact Hyx].
Qed.

Lemma sort_insert_sorted x l : Sorted (cmp_le cmp) l -> Sorted (cmp_le cmp) (sort_insert cmp x l).
Proof.
  induction l as [| y l IH]; intros Hs; simpl; [repeat constructor|].
  inversion Hs as [| ? ? Hs' Hhd]; subst.
  destruct (Qle_bool (cmp y x) 0) eqn:E.
  - constructor; [exact (IH Hs')|].
    apply sort_insert_hd; [apply Qle_bool_iff; exact E | exact Hhd].
  - constructor; [exact Hs|]. constructor. unfold cmp_le.
    assert (Hlt : 0 < cmp y x).
    { apply Qnot_le_lt. intros H. apply Qle_bool_iff in H. congruence. }
    rewrite cmp_antisym. lra.
Qed.

Lemma js_sort_sorted l : Sorted (cmp_le cmp) (js_sort cmp l).
Proof.
  unfold js_sort. assert (H : Sorted (cmp_le cmp) []) by constructor. revert H.
  generalize (@nil string) as acc.
  induction l as [| x l IH]; intros acc H; simpl; [exact H|].
  apply IH, sort_insert_sorted, H.
Qed.

End InsertionSort.

Lemma rsi_compare_antisym so d a b : rsi_compare so d a b == - rsi_compare so d b a.
Proof. unfold rsi_compare. destruct (SortOrder_eqb so rsi_desc); ring. Qed.

Lemma displayed_cases searchTerm showFavoritesOnly favorites sortOrder symbolsData userSymbols :
  displayedSymbols searchTerm showFavoritesOnly favorites sortOrder symbolsData userSymbols =
  if negb (SortOrder_eqb sortOrder sort_default)
     && negb (Nat.eqb (length (obj_keys symbolsData)) 0)
  then js_sort (rsi_compare sortOrder symbolsData)
         (filtered_symbols searchTerm showFavoritesOnly favorites userSymbols)
  else filtered_symbols searchTerm showFavoritesOnly favorites userSymbols.
Proof. reflexivity. Qed.

Lemma displayed_perm searchTerm showFavoritesOnly favorites sortOrder symbolsData userSymbols :
  Permutation
    (displayedSymbols searchTerm showFavoritesOnly favorites sortOrder symbolsData userSymbols)
    (filtered_symbols searchTerm showFavoritesOnly favorites userSymbols).
Proof.
  rewrite displayed_cases. destruct (_ && _); [apply js_sort_perm | reflexivity].
Qed.

Lemma displayed_sorted searchTerm showFavoritesOnly favorites sortOrder symbolsData userSymbols :
  sortOrder <> sort_default -> obj_keys symbolsData <> [] ->
  Sorted (cmp_le (rsi_compare sortOrder symbolsData))
    (displayedSymbols searchTerm showFavoritesOnly favorites sortOrder symbolsData userSymbols).
Proof.
  intros Hso Hd. rewrite displayed_cases.
  replace (negb (SortOrder_eqb sortOrder sort_default)
           && negb (Nat.eqb (length (obj_keys symbolsData)) 0)) with true.
  - apply js_sort_sorted, rsi_compare_antisym.
  - destruct sortOrder; [contradiction | |];
      destruct (obj_keys symbolsData); (contradiction || reflexivity).
Qed.

Lemma Sorted_mono {A} (R R' : A -> A -> Prop) l :
  (forall a b, R a b -> R' a b) -> Sorted R l -> Sorted R' l.
Proof.
  intros Himp. induction 1 as [| a l Hs IH Hhd]; constructor; [exact IH|].
  destruct Hhd; constructor. apply Himp. assumption.
Qed.

Lemma StronglySorted_app_cons {A} (R : A -> A -> Prop) l1 s l2 :
  StronglySorted R (l1 ++ s :: l2) -> Forall (R s) l2.
Proof.
  induction l1 as [| a l1 IH]; simpl; intros H; inversion H; subst; [assumption|].
  apply IH. assumption.
Qed.

(** X10. The displayed list holds exactly the tracked symbols whose
    lowercased name contains the lowercased search term and, when the
    favorites filter is on, that are favorites; sorting adds or drops none,
    so a list without duplicates is displayed without duplicates. *)
Theorem displayed_members searchTerm showFavoritesOnly favorites sortOrder symbolsData
    userSymbols :
  (forall s,
     In s (displayedSymbols searchTerm showFavoritesOnly favorites sortOrder symbolsData
             userSymbols) <->
     In s userSymbols /\
     str_includes (toLowerCase s) (toLowerCase searchTerm) = true /\
     (showFavoritesOnly = true -> In s favorites)) /\
  (NoDup userSymbols ->
   NoDup (displayedSymbols searchTerm showFavoritesOnly favorites sortOrder symbolsData
            userSymbols)).
Proof.
  pose proof (displayed_perm searchTerm showFavoritesOnly favorites sortOrder symbolsData
                userSymbols) as Hp.
  split.
  - intros s. split; intros H.
    + apply (Permutation_in _ Hp) in H. unfold filtered_symbols in H.
      destruct showFavoritesOnly.
      * apply filter_In in H. destruct H as [H Hf]. apply filter_In in H.
        apply includes_In in Hf. tauto.
      * apply filter_In in H. split; [tauto|]. split; [tauto | discriminate].
    + apply (Permutation_in _ (Permutation_sym Hp)). unfold filtered_symbols.
      destruct H as (Hu & Hs & Hf).
      destruct showFavoritesOnly.
      * apply filter_In. split; [apply filter_In; tauto|].
        apply includes_In. auto.
      * apply filter_In. tauto.
  - intros Hnd. apply (Permutation_NoDup (Permutation_sym Hp)).
    unfold filtered_symbols. destruct showFavoritesOnly; repeat apply NoDup_filter_str; exact Hnd.
Qed.

(** X11. With an RSI sort selected and some data loaded, the displayed list
    is ordered by the RSI each symbol's card shows: non-increasing for
    [rsi-desc], non-decreasing for [rsi-asc], a symbol without a value
    counting as -1 and 101 respectively. *)
Theorem displayed_sorted_by_rsi searchTerm showFavoritesOnly favorites symbolsData userSymbols :
  obj_keys symbolsData <> [] ->
  Sorted (fun a b => sort_key rsi_desc symbolsData b <= sort_key rsi_desc symbolsData a)
    (displayedSymbols searchTerm showFavoritesOnly favorites rsi_desc symbolsData userSymbols) /\
  Sorted (fun a b => sort_key rsi_asc symbolsData a <= sort_key rsi_asc symbolsData b)
    (displayedSymbols searchTerm showFavoritesOnly favorites rsi_asc symbolsData userSymbols).
Proof.
  intros Hd. split.
  - eapply Sorted_mono; [| apply displayed_sorted; [discriminate | exact Hd]].
    unfold cmp_le, rsi_compare. simpl. intros a b H. lra.
  - eapply Sorted_mono; [| apply displayed_sorted; [discriminate | exact Hd]].
    unfold cmp_le, rsi_compare. simpl. intros a b H. lra.
Qed.

Lemma displayed_sorted_by_rsi_witness :
  obj_keys sort_data <> [] /\
  Sorted (fun a b => sort_key rsi_desc sort_data b <= sort_key rsi_desc sort_data a)
    (displayedSymbols "usdt" false [] rsi_desc sort_data sort_symbols) /\
  Sorted (fun a b => sort_key rsi_asc sort_data a <= sort_key rsi_asc sort_data b)
    (displayedSymbols "usdt" false [] rsi_asc sort_data sort_symbols).
Proof.
  assert (H : obj_keys sort_data <> []) by discriminate.
  split; [exact H|].
  exact (displayed_sorted_by_rsi "usdt" false [] sort_data sort_symbols H).
Defined.

(** X12. When every RSI value lies in [0, 100], an RSI sort puts every
    symbol with a value before every symbol without one (no data, or an
    empty series), in both directions: after the first symbol without a
    value, none has one. *)
Theorem displayed_missing_last searchTerm showFavoritesOnly favorites sortOrder symbolsData
    userSymbols l1 s l2 :
  sortOrder <> sort_default ->
  obj_keys symbolsData <> [] ->
  (forall t v, latest_rsi symbolsData t = Some v -> 0 <= v <= 100) ->
  displayedSymbols searchTerm showFavoritesOnly favorites sortOrder symbolsData userSymbols =
    (l1 ++ s :: l2)%list ->
  latest_rsi symbolsData s = None ->
  Forall (fun t => latest_rsi symbolsData t = None) l2.
Proof.
  intros Hso Hd Hrange Heq Hs.
  pose proof (displayed_sorted searchTerm showFavoritesOnly favorites sortOrder symbolsData
                userSymbols Hso Hd) as Hsort.
  rewrite Heq in Hsort.
  apply Sorted_StronglySorted in Hsort.
  2:{ intros a b c. unfold cmp_le, rsi_compare.
      destruct (SortOrder_eqb sortOrder rsi_desc); intros; lra. }
  apply StronglySorted_app_cons in Hsort.
  revert Hsort. apply Forall_impl. intros t Ht.
  destruct (latest_rsi symbolsData t) as [v|] eqn:Hv; [exfalso | reflexivity].
  specialize (Hrange t v Hv).
  unfold cmp_le, rsi_compare, sort_key in Ht. rewrite Hs, Hv in Ht.
  destruct sortOrder; [contradiction | |]; simpl in Ht; lra.
Qed.

Lemma displayed_missing_last_witness :
  (rsi_desc <> sort_default /\ obj_keys sort_data <> [] /\
   (forall t v, latest_rsi sort_data t = Some v -> 0 <= v <= 100) /\
   displayedSymbols "" false [] rsi_desc sort_data sort_symbols =
     (["BUSDT"; "AUSDT"] ++ "CUSDT" :: ["DUSDT"])%list /\
   latest_rsi sort_data "CUSDT" = None) /\
  Forall (fun t => latest_rsi sort_data t = None) ["DUSDT"].
Proof.
  assert (H1 : rsi_desc <> sort_default) by discriminate.
  assert (H2 : obj_keys sort_data <> []) by discriminate.
  assert (H3 : forall t v, latest_rsi sort_data t = Some v -> 0 <= v <= 100).
  { intros t v. unfold latest_rsi, sort_data. simpl.
    destruct (String.eqb t "AUSDT"); [intros [= <-]; split; lra|].
    destruct (String.eqb t "BUSDT"); [intros [= <-]; split; lra|].
    destruct (String.eqb t "CUSDT"); discriminate. }
  assert (H4 : displayedSymbols "" false [] rsi_desc sort_data sort_symbols =
                 (["BUSDT"; "AUSDT"] ++ "CUSDT" :: ["DUSDT"])%list) by (vm_compute; reflexivity).
  assert (H5 : latest_rsi sort_data "CUSDT" = None) by reflexivity.
  split; [exact (conj H1 (conj H2 (conj H3 (conj H4 H5))))|].
  exact (displayed_missing_last "" false [] rsi_desc sort_data sort_symbols
           ["BUSDT"; "AUSDT"] "CUSDT" ["DUSDT"] H1 H2 H3 H4 H5).
Defined.

Lemma ascii_toLower_idem c : ascii_toLower (ascii_toLower c) = ascii_toLower c.
Proof. destruct c as [[|] [|] [|] [|] [|] [|] [|] [|]]; reflexivity. Qed.

Lemma toLowerCase_idem s : toLowerCase (toLowerCase s) = toLowerCase s.
Proof. induction s as [| c s IH]; simpl; [reflexivity|]. now rewrite ascii_toLower_idem, IH. Qed.

(** X13. The search is case-insensitive: a search term and its lowercase
    form display the same list. *)
Theorem search_case_insensitive searchTerm showFavoritesOnly favorites sortOrder symbolsData
    userSymbols :
  displayedSymbols (toLowerCase searchTerm) showFavoritesOnly favorites sortOrder symbolsData
    userSymbols =
  displayedSymbols searchTerm showFavoritesOnly favorites sortOrder symbolsData userSymbols.
Proof. unfold displayedSymbols. now rewrite toLowerCase_idem. Qed.

(** ** Grid columns *)

Lemma Qfloor_nonpos q : q <= 0 -> (Qfloor q <= 0)%Z.
Proof. intros H. apply (Qfloor_resp_le q 0) in H. exact H. Qed.

Lemma cellWidth_pos c : 0 <= c -> 0 < c * (3 # 2) + 12.
Proof. intros H. lra. Qed.

Lemma calculateColumns_width w1 w2 c :
  0 <= c -> w1 <= w2 -> (calculateColumns w1 c <= calculateColumns w2 c)%Z.
Proof.
  intros Hc Hw. unfold calculateColumns.
  apply Z.max_le_compat_l, Qfloor_resp_le. unfold Qdiv.
  apply Qmult_le_compat_r; [lra|]. apply Qinv_le_0_compat. apply Qlt_le_weak, cellWidth_pos, Hc.
Qed.

Lemma calculateColumns_cell w c1 c2 :
  0 <= c1 -> c1 <= c2 -> (calculateColumns w c2 <= calculateColumns w c1)%Z.
Proof.
  intros H1 H12. unfold calculateColumns.
  set (x := w - 40). set (k1 := c1 * (3 # 2) + 12). set (k2 := c2 * (3 # 2) + 12).
  assert (Hk1 : 0 < k1) by (apply cellWidth_pos; exact H1).
  assert (Hk2 : 0 < k2) by (subst k2; lra).
  assert (Hk : k1 <= k2) by (subst k1 k2; lra).
  destruct (Qlt_le_dec x 0) as [Hx | Hx].
  - assert (E : forall k, 0 < k -> Z.max 2 (Qfloor (x / k)) = 2%Z).
    { intros k Hk0. apply Z.max_l. transitivity 0%Z; [apply Qfloor_nonpos | lia].
      unfold Qdiv. setoid_replace 0 with (0 * / k) by ring.
      apply Qmult_le_compat_r; [lra | apply Qinv_le_0_compat; lra]. }
    rewrite (E k1 Hk1), (E k2 Hk2). lia.
  - apply Z.max_le_compat_l, Qfloor_resp_le.
    apply Qle_shift_div_r; [exact Hk2|].
    assert (Hq : 0 <= x / k1).
    { unfold Qdiv. setoid_replace 0 with (0 * / k1) by ring.
      apply Qmult_le_compat_r; [exact Hx | apply Qinv_le_0_compat; lra]. }
    apply Qle_trans with (x / k1 * k1).
    + setoid_replace (x / k1 * k1) with x; [apply Qle_refl|].
      field. intros E. rewrite E in Hk1. exact (Qlt_irrefl 0 Hk1).
    + apply Qmult_le_compat_nonneg; split; [exact Hq | apply Qle_refl | lra | exact Hk].
Qed.

(** X14. A wider window never gives fewer grid columns, and larger cells
    never give more: the column count is monotone in [window.innerWidth]
    and antitone in [cellSize] (for a nonnegative cell size). *)
Theorem calculateColumns_monotone w1 w2 c1 c2 :
  0 <= c1 -> c1 <= c2 -> w1 <= w2 ->
  (calculateColumns w1 c2 <= calculateColumns w2 c1)%Z.
Proof.
  intros H1 H12 Hw.
  transitivity (calculateColumns w2 c2).
  - apply calculateColumns_width; [lra | exact Hw].
  - apply calculateColumns_cell; assumption.
Qed.

Lemma calculateColumns_monotone_witness :
  ((0 <= 80)%Q /\ (80 <= 120)%Q /\ (1280 <= 1920)%Q) /\
  (calculateColumns 1280 120 <= calculateColumns 1920 80)%Z.
Proof.
  assert (H1 : (0 <= 80)%Q) by lra. assert (H2 : (80 <= 120)%Q) by lra.
  assert (H3 : (1280 <= 1920)%Q) by lra.
  split; [exact (conj H1 (conj H2 H3))|].
  exact (calculateColumns_monotone 1280 1920 80 120 H1 H2 H3).
Defined.
